(** * The incremental processing engine interface (lib/inc-proc-eng.h)

    A shallow embedding of the data model, the static node definition
    macros and the macro-generated OVSDB leaf-node callbacks of
    [lib/inc-proc-eng.h], with the properties the specification states
    about them.

    C objects live in a typed object store addressed by [addr]; a C pointer
    is an address, [NULL] is address [0].  A C function that dereferences
    pointers or writes memory is a computation in the monad [M]: it takes
    the current [world] and either returns a value and the next world or
    stops with a [fault]. *)

From Stdlib Require Import ZArith NArith Ascii String List Bool Lia.
From stdpp Require Import gmap strings list fin_maps.

Set Warnings "-register-all".
Set Default Proof Using "Type".

Local Open Scope string_scope.

(** ** Constants *)

Definition ENGINE_MAX_INPUT : nat := 256.
Definition ENGINE_MAX_OVSDB_INDEX : nat := 256.

(** ** Pointers *)

Definition addr := N.
Definition NULL : addr := 0%N.

(** A function pointer is the linker symbol of the function it points to,
    or [None] for a null function pointer. *)
Definition fn_ptr := option string.

(** ** Enumerations *)

(** [enum engine_node_state], enumerators in declaration order. *)
Inductive engine_node_state :=
| EN_STALE
| EN_UPDATED
| EN_UNCHANGED
| EN_CANCELED
| EN_STATE_MAX.

#[global] Instance engine_node_state_eq_dec : EqDecision engine_node_state.
Proof. solve_decision. Defined.

Definition engine_node_state_enumerators : list engine_node_state :=
  [EN_STALE; EN_UPDATED; EN_UNCHANGED; EN_CANCELED; EN_STATE_MAX].

(** C numbers the enumerators of a declaration without initializers
    0, 1, 2, ... in declaration order. *)
Fixpoint enumerator_index {A} `{EqDecision A} (x : A) (l : list A) (i : Z) : Z :=
  match l with
  | [] => i
  | y :: l' => if decide (x = y) then i else enumerator_index x l' (i + 1)
  end.

Definition engine_node_state_val (s : engine_node_state) : Z :=
  enumerator_index s engine_node_state_enumerators 0.

(** [enum engine_input_handler_result]. *)
Inductive engine_input_handler_result :=
| EN_UNHANDLED
| EN_HANDLED_UPDATED
| EN_HANDLED_UNCHANGED.

#[global] Instance engine_input_handler_result_eq_dec :
  EqDecision engine_input_handler_result.
Proof. solve_decision. Defined.

(** The initializers of the declaration:
    [EN_UNHANDLED = -1], [EN_HANDLED_UPDATED = EN_UPDATED],
    [EN_HANDLED_UNCHANGED = EN_UNCHANGED]. *)
Definition engine_input_handler_result_val (r : engine_input_handler_result) : Z :=
  match r with
  | EN_UNHANDLED => -1
  | EN_HANDLED_UPDATED => engine_node_state_val EN_UPDATED
  | EN_HANDLED_UNCHANGED => engine_node_state_val EN_UNCHANGED
  end.

(** The states a node can be in; [EN_STATE_MAX] is the count that closes
    the enumeration. *)
Definition node_states : list engine_node_state :=
  [EN_STALE; EN_UPDATED; EN_UNCHANGED; EN_CANCELED].

(** ** Structures *)

(** [struct engine_arg]: the IDLs handed to [engine_init]. *)
Record engine_arg := {
  sb_idl : addr;
  nb_idl : addr;
  ovs_idl : addr;
}.

(** [struct engine_node_input]. *)
Record engine_node_input := {
  node : addr;
  change_handler : fn_ptr;
}.

(** [struct engine_stats], three [uint64_t] counters. *)
Record engine_stats := {
  recompute : N;
  compute : N;
  cancel : N;
}.

(** [struct engine_node].  [name] is a [char *]: [None] is the null
    pointer.  [inputs] is the array [inputs[ENGINE_MAX_INPUT]]. *)
Record engine_node := {
  name : option string;
  n_inputs : nat;
  inputs : list engine_node_input;
  data : addr;
  state : engine_node_state;
  init : fn_ptr;
  cleanup : fn_ptr;
  run : fn_ptr;
  is_valid : fn_ptr;
  clear_tracked_data : fn_ptr;
  get_compute_failure_info : fn_ptr;
  stats : engine_stats;
}.

(** [struct ed_ovsdb_index]. *)
Record ed_ovsdb_index := {
  idx_name : option string;
  index : addr;
}.

(** [struct ed_type_ovsdb_table].  [indexes] is the array
    [indexes[ENGINE_MAX_OVSDB_INDEX]]. *)
Record ed_type_ovsdb_table := {
  table : addr;
  n_indexes : nat;
  indexes : list ed_ovsdb_index;
}.

(** ** The OVSDB IDL

    The leaf nodes read their table through the OVSDB IDL, a library
    outside this repository, and through the per-schema accessors the IDL
    compiler generates from it.  Only what the header's macros use of them
    is modelled. *)

(** [struct uuid]: four 32-bit parts. *)
Record uuid_t := {
  parts0 : N;
  parts1 : N;
  parts2 : N;
  parts3 : N;
}.

(** Modelled from the spec: [struct ovsdb_idl_column] of the IDL library,
    of which the macros read the [name] member. *)
Record ovsdb_idl_column := {
  col_name : string;
}.

(** Modelled from the spec: [struct ovsdb_idl_table_class] of the IDL
    library, of which the macros read [n_columns]; [tc_name] identifies the
    class. *)
Record ovsdb_idl_table_class := {
  tc_name : string;
  n_columns : nat;
}.

(** [enum ovsdb_idl_change]. *)
Inductive ovsdb_idl_change :=
| OVSDB_IDL_CHANGE_INSERT
| OVSDB_IDL_CHANGE_MODIFY
| OVSDB_IDL_CHANGE_DELETE.

(** Modelled from the spec: [struct ovsdb_idl_row] of the IDL library.  A
    tracked row carries its uuid, the class of its table
    ([row->table->class_]), one change sequence number per kind of change,
    the bitmap of its updated columns, and the link to the next row of its
    table's track list ([None] ends the list). *)
Inductive ovsdb_idl_row := Build_ovsdb_idl_row {
  uuid : uuid_t;
  row_class : ovsdb_idl_table_class;
  insert_seqno : N;
  modify_seqno : N;
  delete_seqno : N;
  updated : N;
  track_next : option ovsdb_idl_row;
}.

(** Modelled from the spec: [struct ovsdb_idl], the "tracked change"
    data source of a leaf node: for each table class, by name, the first
    row of the table's track list, if any. *)
Record ovsdb_idl := {
  track_first : gmap string ovsdb_idl_row;
}.

(** Modelled from the spec: [ovsdb_idl_row_get_seqno] of the IDL library. *)
Definition ovsdb_idl_row_get_seqno (row : ovsdb_idl_row)
    (change : ovsdb_idl_change) : N :=
  match change with
  | OVSDB_IDL_CHANGE_INSERT => insert_seqno row
  | OVSDB_IDL_CHANGE_MODIFY => modify_seqno row
  | OVSDB_IDL_CHANGE_DELETE => delete_seqno row
  end.

(** Modelled from the spec: [ovsdb_idl_track_get_next] of the IDL
    library. *)
Definition ovsdb_idl_track_get_next (row : ovsdb_idl_row) : option ovsdb_idl_row :=
  track_next row.

(** Modelled from the spec: [ovsdb_idl_track_is_updated] of the IDL
    library; the column is given by its position in the class's column
    array. *)
Definition ovsdb_idl_track_is_updated (row : ovsdb_idl_row) (column_idx : nat) : bool :=
  N.testbit (updated row) (N.of_nat column_idx).

(** The rows of a track list from [row] on, in list order. *)
Fixpoint track_rows_from (row : ovsdb_idl_row) : list ovsdb_idl_row :=
  row :: match ovsdb_idl_track_get_next row with
         | Some row' => track_rows_from row'
         | None => []
         end.

Definition track_rows (first : option ovsdb_idl_row) : list ovsdb_idl_row :=
  match first with
  | Some row => track_rows_from row
  | None => []
  end.

(** ** Memory and effects *)

(** The objects a pointer of this interface can point to. *)
Inductive object :=
| ONode (n : engine_node)
| OTable (t : ed_type_ovsdb_table)
| OArg (a : engine_arg)
| OIdl (i : ovsdb_idl).

(** The state the functions act on: the object store, whether debug
    logging is enabled for the module, and the log lines written so far. *)
Record world := {
  mem : gmap addr object;
  vlog_dbg_enabled : bool;
  vlog : list string;
}.

Inductive fault :=
| Undefined      (* invalid pointer dereference or out-of-bounds access *)
| AssertFailed.  (* a failed ovs_assert *)

Inductive result (A : Type) :=
| Ok (a : A) (w : world)
| Fault (f : fault).
Arguments Ok {A} a w.
Arguments Fault {A} f.

Definition M (A : Type) : Type := world -> result A.

Definition ret {A} (a : A) : M A := fun w => Ok a w.

Definition bind {A B} (c : M A) (k : A -> M B) : M B :=
  fun w => match c w with
           | Ok a w' => k a w'
           | Fault f => Fault f
           end.

Definition fail {A} (f : fault) : M A := fun _ => Fault f.

Declare Scope m_scope.
Delimit Scope m_scope with M.
Notation "x <- c ;; k" := (bind c (fun x => k))
  (at level 100, c at next level, right associativity) : m_scope.
Notation "c ;;; k" := (bind c (fun _ => k))
  (at level 100, right associativity) : m_scope.
Local Open Scope m_scope.

Definition load (p : addr) : M object :=
  fun w => match mem w !! p with
           | Some o => Ok o w
           | None => Fault Undefined
           end.

(** The world with the object store replaced. *)
Definition set_mem (w : world) (m : gmap addr object) : world :=
  {| mem := m;
     vlog_dbg_enabled := vlog_dbg_enabled w;
     vlog := vlog w |}.

Definition store (p : addr) (o : object) : M unit :=
  fun w => match mem w !! p with
           | Some _ => Ok tt (set_mem w (<[p := o]> (mem w)))
           | None => Fault Undefined
           end.

Definition load_node (p : addr) : M engine_node :=
  o <- load p ;; match o with ONode n => ret n | _ => fail Undefined end.

Definition load_table (p : addr) : M ed_type_ovsdb_table :=
  o <- load p ;; match o with OTable t => ret t | _ => fail Undefined end.

Definition load_arg (p : addr) : M engine_arg :=
  o <- load p ;; match o with OArg a => ret a | _ => fail Undefined end.

Definition load_idl (p : addr) : M ovsdb_idl :=
  o <- load p ;; match o with OIdl i => ret i | _ => fail Undefined end.

(** [xzalloc]: a fresh, non-null block holding the all-zero object [zero];
    it never returns [NULL]. *)
Definition xzalloc (zero : object) : M addr :=
  fun w => let p := fresh ({[NULL]} ∪ dom (mem w)) in
           Ok p (set_mem w (<[p := zero]> (mem w))).

(** [VLOG_IS_DBG_ENABLED()] and [VLOG_DBG("%s", msg)]. *)
Definition VLOG_IS_DBG_ENABLED : M bool :=
  fun w => Ok (vlog_dbg_enabled w) w.

Definition VLOG_DBG (msg : string) : M unit :=
  fun w => if vlog_dbg_enabled w
           then Ok tt {| mem := mem w;
                         vlog_dbg_enabled := vlog_dbg_enabled w;
                         vlog := vlog w ++ [msg] |}
           else Ok tt w.

(** Modelled from the spec: [ovsdb_idl_track_get_first] of the IDL
    library: the first tracked row of the table of class [class] in the
    IDL at [idl], [None] for a null row. *)
Definition ovsdb_idl_track_get_first (idl : addr) (class : ovsdb_idl_table_class)
    : M (option ovsdb_idl_row) :=
  i <- load_idl idl ;; ret (track_first i !! tc_name class).

(** Dynamic strings ([struct ds]) hold their text. *)
Definition DS_EMPTY_INITIALIZER : string := EmptyString.

Definition ds_put_cstr (s : string) (text : string) : string := s +:+ text.

(** [ds_chomp (ds, c)]: drop the last character if it is [c]. *)
Fixpoint ds_chomp (s : string) (c : ascii) : string :=
  match s with
  | EmptyString => EmptyString
  | String a EmptyString => if Ascii.eqb a c then EmptyString else s
  | String a s' => String a (ds_chomp s' c)
  end.

(** A [char *] passed to a [%s] conversion: it must not be null. *)
Definition cstr (p : option string) : M string :=
  match p with
  | Some s => ret s
  | None => fail Undefined
  end.

(** ** Static node definitions *)

(** The data-base tokens a leaf macro can be instantiated with: the
    [DB_NAME] of [ENGINE_FUNC_OVSDB] is pasted into [arg->DB_NAME##_idl],
    so it names one of the members of [struct engine_arg]. *)
Inductive db_name := sb | nb | ovs.

(** [#DB_NAME]: the spelling of the token. *)
Definition db_token (DB_NAME : db_name) : string :=
  match DB_NAME with
  | sb => "sb"
  | nb => "nb"
  | ovs => "ovs"
  end.

(** [arg->DB_NAME##_idl]. *)
Definition DB_NAME_idl (DB_NAME : db_name) (arg : engine_arg) : addr :=
  match DB_NAME with
  | sb => sb_idl arg
  | nb => nb_idl arg
  | ovs => ovs_idl arg
  end.

(** A designated initializer [.member = value] of a [struct engine_node]. *)
Inductive designator :=
| D_name (s : string)
| D_data (p : addr)
| D_state (s : engine_node_state)
| D_init (f : string)
| D_run (f : string)
| D_cleanup (f : string)
| D_clear_tracked_data (f : string)
| D_is_valid (f : string)
| D_get_compute_failure_info (f : string).

(** The all-zero [struct engine_node]: members without an initializer are
    zero; the enumerator with value 0 is [EN_STALE]. *)
Definition engine_node_zero : engine_node :=
  {| name := None;
     n_inputs := 0;
     inputs := replicate ENGINE_MAX_INPUT {| node := NULL; change_handler := None |};
     data := NULL;
     state := EN_STALE;
     init := None;
     cleanup := None;
     run := None;
     is_valid := None;
     clear_tracked_data := None;
     get_compute_failure_info := None;
     stats := {| recompute := 0; compute := 0; cancel := 0 |} |}.

Definition designate (n : engine_node) (d : designator) : engine_node :=
  let mk := Build_engine_node in
  match d with
  | D_name s =>
      mk (Some s) (n_inputs n) (inputs n) (data n) (state n) (init n) (cleanup n)
         (run n) (is_valid n) (clear_tracked_data n) (get_compute_failure_info n) (stats n)
  | D_data p =>
      mk (name n) (n_inputs n) (inputs n) p (state n) (init n) (cleanup n)
         (run n) (is_valid n) (clear_tracked_data n) (get_compute_failure_info n) (stats n)
  | D_state s =>
      mk (name n) (n_inputs n) (inputs n) (data n) s (init n) (cleanup n)
         (run n) (is_valid n) (clear_tracked_data n) (get_compute_failure_info n) (stats n)
  | D_init f =>
      mk (name n) (n_inputs n) (inputs n) (data n) (state n) (Some f) (cleanup n)
         (run n) (is_valid n) (clear_tracked_data n) (get_compute_failure_info n) (stats n)
  | D_run f =>
      mk (name n) (n_inputs n) (inputs n) (data n) (state n) (init n) (cleanup n)
         (Some f) (is_valid n) (clear_tracked_data n) (get_compute_failure_info n) (stats n)
  | D_cleanup f =>
      mk (name n) (n_inputs n) (inputs n) (data n) (state n) (init n) (Some f)
         (run n) (is_valid n) (clear_tracked_data n) (get_compute_failure_info n) (stats n)
  | D_clear_tracked_data f =>
      mk (name n) (n_inputs n) (inputs n) (data n) (state n) (init n) (cleanup n)
         (run n) (is_valid n) (Some f) (get_compute_failure_info n) (stats n)
  | D_is_valid f =>
      mk (name n) (n_inputs n) (inputs n) (data n) (state n) (init n) (cleanup n)
         (run n) (Some f) (clear_tracked_data n) (get_compute_failure_info n) (stats n)
  | D_get_compute_failure_info f =>
      mk (name n) (n_inputs n) (inputs n) (data n) (state n) (init n) (cleanup n)
         (run n) (is_valid n) (clear_tracked_data n) (Some f) (stats n)
  end.

(** The value of [struct engine_node x = { d1, d2, ... }]: the designators
    are applied in order to the all-zero structure. *)
Definition static_init (ds : list designator) : engine_node :=
  fold_left designate ds engine_node_zero.

(** A file-scope definition [struct engine_node <symbol> = { ... };]. *)
Record node_definition := {
  symbol : string;
  initializer : list designator;
}.

Definition node_of (d : node_definition) : engine_node :=
  static_init (initializer d).

(** [ENGINE_NODE_DEF_START(NAME, NAME_STR)]: the symbol [en_##NAME] and the
    first six designators. *)
Definition ENGINE_NODE_DEF_START (NAME NAME_STR : string) : node_definition :=
  {| symbol := "en_" +:+ NAME;
     initializer :=
       [ D_name NAME_STR;
         D_data NULL;
         D_state EN_STALE;
         D_init ("en_" +:+ NAME +:+ "_init");
         D_run ("en_" +:+ NAME +:+ "_run");
         D_cleanup ("en_" +:+ NAME +:+ "_cleanup") ] |}.

(** What follows [ENGINE_NODE_DEF_START] before [ENGINE_NODE_DEF_END]. *)
Definition more (d : node_definition) (ds : list designator) : node_definition :=
  {| symbol := symbol d; initializer := initializer d ++ ds |}.

(** The macros that can stand for [ARG1] and [ARG2] of [ENGINE_NODE2] and
    [ENGINE_NODE3]. *)
Inductive node_arg := CLEAR_TRACKED_DATA | IS_VALID.

Definition expand_arg (ARG : node_arg) (NAME : string) : designator :=
  match ARG with
  | CLEAR_TRACKED_DATA => D_clear_tracked_data ("en_" +:+ NAME +:+ "_clear_tracked_data")
  | IS_VALID => D_is_valid ("en_" +:+ NAME +:+ "_is_valid")
  end.

Definition COMPUTE_FAIL_INFO (NAME : string) : designator :=
  D_get_compute_failure_info ("en_" +:+ NAME +:+ "_compute_failure_info").

Definition ENGINE_NODE1 (NAME : string) : node_definition :=
  ENGINE_NODE_DEF_START NAME NAME.

Definition ENGINE_NODE2 (NAME : string) (ARG1 : node_arg) : node_definition :=
  more (ENGINE_NODE_DEF_START NAME NAME) [expand_arg ARG1 NAME].

Definition ENGINE_NODE3 (NAME : string) (ARG1 ARG2 : node_arg) : node_definition :=
  more (ENGINE_NODE_DEF_START NAME NAME) [expand_arg ARG1 NAME; expand_arg ARG2 NAME].

(** [ENGINE_NODE(...)] selects [ENGINE_NODE<n>] by its number of arguments;
    there is no such macro for more than three. *)
Definition ENGINE_NODE (NAME : string) (ARGS : list node_arg) : option node_definition :=
  match ARGS with
  | [] => Some (ENGINE_NODE1 NAME)
  | [ARG1] => Some (ENGINE_NODE2 NAME ARG1)
  | [ARG1; ARG2] => Some (ENGINE_NODE3 NAME ARG1 ARG2)
  | _ => None
  end.

Definition ENGINE_NODE_OVSDB (DB_NAME : db_name) (DB_NAME_STR : string)
    (TBL_NAME TBL_NAME_STR : string) : node_definition :=
  more (ENGINE_NODE_DEF_START (db_token DB_NAME +:+ "_" +:+ TBL_NAME)
                              (DB_NAME_STR +:+ "_" +:+ TBL_NAME_STR))
       [COMPUTE_FAIL_INFO (db_token DB_NAME +:+ "_" +:+ TBL_NAME)].

Definition ENGINE_NODE_SB (TBL_NAME : string) : node_definition :=
  ENGINE_NODE_OVSDB sb "SB" TBL_NAME TBL_NAME.

Definition ENGINE_NODE_NB (TBL_NAME : string) : node_definition :=
  ENGINE_NODE_OVSDB nb "NB" TBL_NAME TBL_NAME.

Definition ENGINE_NODE_OVS (TBL_NAME : string) : node_definition :=
  ENGINE_NODE_OVSDB ovs "OVS" TBL_NAME TBL_NAME.

(** The node definitions the header's macros can produce. *)
Inductive macro_defined : node_definition -> Prop :=
| def_ENGINE_NODE NAME ARGS d :
    ENGINE_NODE NAME ARGS = Some d -> macro_defined d
| def_ENGINE_NODE_OVSDB DB_NAME DB_NAME_STR TBL_NAME TBL_NAME_STR :
    macro_defined (ENGINE_NODE_OVSDB DB_NAME DB_NAME_STR TBL_NAME TBL_NAME_STR).

(** ** The inline no-op handler *)

(** [engine_noop_handler (node, data)]: both arguments are unused. *)
Definition engine_noop_handler (node : addr) (data : addr)
    : M engine_input_handler_result :=
  ret EN_HANDLED_UNCHANGED.

(** ** The macro-generated OVSDB leaf callbacks

    [ENGINE_FUNC_OVSDB(DB_NAME, TBL_NAME)] defines four functions; the
    section's variables are the macro's two arguments and the objects of
    the IDL-generated schema code that the pasted tokens name. *)

Definition LF : string := String "010"%char EmptyString.
Definition DQUOTE : string := String "034"%char EmptyString.

(** The zero-filled [struct ed_type_ovsdb_table]. *)
Definition ed_type_ovsdb_table_zero : ed_type_ovsdb_table :=
  {| table := NULL;
     n_indexes := 0;
     indexes := replicate ENGINE_MAX_OVSDB_INDEX {| idx_name := None; index := NULL |} |}.

(** [EN_OVSDB_GET(NODE)]:
    [((struct ed_type_ovsdb_table * ) (NODE)->data)->table]. *)
Definition EN_OVSDB_GET (NODE : addr) : M addr :=
  n <- load_node NODE ;;
  t <- load_table (data n) ;;
  ret (table t).

(** [for (i = 0; i < count; i++) body], carrying the dynamic string. *)
Fixpoint for_index (body : nat -> string -> M string) (i todo : nat) (s : string)
    : M string :=
  match todo with
  | 0 => ret s
  | S todo' => s' <- body i s ;; for_index body (S i) todo' s'
  end.

(** [for (; row; row = ovsdb_idl_track_get_next(row)) body], entered with
    a non-null [row]. *)
Fixpoint for_tracked (body : ovsdb_idl_row -> string -> M string)
    (row : ovsdb_idl_row) (s : string) {struct row} : M string :=
  s' <- body row s ;;
  match ovsdb_idl_track_get_next row with
  | Some row' => for_tracked body row' s'
  | None => ret s'
  end.

Section Leaf.
(** The macro arguments. *)
Variable DB_NAME : db_name.
Variable TBL_NAME : string.
(** [DB_NAME##rec_table_##TBL_NAME], the table class, and
    [DB_NAME##rec_##TBL_NAME##_columns], its column array. *)
Variable rec_table : ovsdb_idl_table_class.
Variable rec_columns : list ovsdb_idl_column.
(** The text [UUID_FMT] prints for [UUID_ARGS(&row->uuid)]. *)
Variable UUID_FMT : uuid_t -> string.

(** Modelled from the spec: [DB_NAME##rec_##TBL_NAME##_table_get] of the
    generated schema code: the handle of the table in [idl].  The handle
    is the IDL itself, as [compute_failure_info] below uses it. *)
Definition rec_table_get (idl : addr) : addr := idl.

(** Modelled from the spec:
    [DB_NAME##rec_##TBL_NAME##_table_track_get_first] of the generated
    schema code, the probe for "any tracked change": the first tracked
    row of the table, [None] when there is none. *)
Definition rec_table_track_get_first (table : addr) : M (option ovsdb_idl_row) :=
  ovsdb_idl_track_get_first table rec_table.

(** [#DB_NAME"_"#TBL_NAME]. *)
Definition table_label : string := db_token DB_NAME +:+ "_" +:+ TBL_NAME.

(** [en_##DB_NAME##_##TBL_NAME##_run]. *)
Definition en_DB_NAME_TBL_NAME_run (node : addr) (data : addr)
    : M engine_node_state :=
  table <- EN_OVSDB_GET node ;;
  first <- rec_table_track_get_first table ;;
  if first is Some _ then ret EN_UPDATED
  else ret EN_UNCHANGED.

(** [en_##DB_NAME##_##TBL_NAME##_init]. *)
Definition en_DB_NAME_TBL_NAME_init (node : addr) (arg : addr) : M addr :=
  a <- load_arg arg ;;
  let idl := DB_NAME_idl DB_NAME a in
  data <- xzalloc (OTable ed_type_ovsdb_table_zero) ;;
  t <- load_table data ;;
  store data (OTable {| table := rec_table_get idl;
                        n_indexes := n_indexes t;
                        indexes := indexes t |}) ;;;
  ret data.

(** [en_##DB_NAME##_##TBL_NAME##_cleanup]: the body is empty. *)
Definition en_DB_NAME_TBL_NAME_cleanup (data : addr) : M unit :=
  ret tt.

(** The inner loop of [compute_failure_info], over the columns: [col] is
    the address of [rec_columns[i]], and [col->name] is read only for an
    updated column. *)
Definition failure_info_column (row : ovsdb_idl_row) (i : nat) (s : string)
    : M string :=
  if ovsdb_idl_track_is_updated row i
  then match rec_columns !! i with
       | Some col => ret (ds_put_cstr s (" " +:+ col_name col +:+ ","))
       | None => fail Undefined
       end
  else ret s.

(** The body of the loop of [compute_failure_info] over the tracked
    rows. *)
Definition failure_info_row (row : ovsdb_idl_row) (s : string) : M string :=
  if (0 <? ovsdb_idl_row_get_seqno row OVSDB_IDL_CHANGE_INSERT)%N then
    ret (ds_put_cstr s (table_label +:+ " (New) " +:+ UUID_FMT (uuid row) +:+ LF))
  else if (0 <? ovsdb_idl_row_get_seqno row OVSDB_IDL_CHANGE_DELETE)%N then
    ret (ds_put_cstr s (table_label +:+ " (Deleted) " +:+ UUID_FMT (uuid row) +:+ LF))
  else
    let s := ds_put_cstr s (table_label +:+ " (Updated) " +:+ UUID_FMT (uuid row)
                            +:+ " columns:") in
    s <- for_index (failure_info_column row) 0 (n_columns (row_class row)) s ;;
    ret (ds_chomp s ","%char).

(** [en_##DB_NAME##_##TBL_NAME##_compute_failure_info]. *)
Definition en_DB_NAME_TBL_NAME_compute_failure_info (node : addr) : M unit :=
  dbg <- VLOG_IS_DBG_ENABLED ;;
  if negb dbg then ret tt
  else
    table <- EN_OVSDB_GET node ;;
    let s := DS_EMPTY_INITIALIZER in
    n <- load_node node ;;
    node_name <- cstr (name n) ;;
    let s := ds_put_cstr s ("Node " +:+ DQUOTE +:+ node_name +:+ DQUOTE
                            +:+ " compute failure info:" +:+ LF) in
    first <- ovsdb_idl_track_get_first table rec_table ;;
    s <- match first with
         | Some row => for_tracked failure_info_row row s
         | None => ret s
         end ;;
    VLOG_DBG s.
End Leaf.

(** ** The engine functions the header declares

    The header declares these functions; their bodies are in
    [lib/inc-proc-eng.c].  The section's variables are the callbacks user
    code links in, by symbol: the [is_valid] predicates and the change
    handlers. *)

(** The flags of one incremental pass over a node's inputs. *)
Record compute_flags := {
  needs_recompute : bool;
  any_handled_update : bool;
  all_handled_unchanged : bool;
}.

Definition set_state (n : engine_node) (s : engine_node_state) : engine_node :=
  designate n (D_state s).

Definition push_input (n : engine_node) (e : engine_node_input) : engine_node :=
  {| name := name n;
     n_inputs := S (n_inputs n);
     inputs := <[n_inputs n := e]> (inputs n);
     data := data n;
     state := state n;
     init := init n;
     cleanup := cleanup n;
     run := run n;
     is_valid := is_valid n;
     clear_tracked_data := clear_tracked_data n;
     get_compute_failure_info := get_compute_failure_info n;
     stats := stats n |}.

Definition push_index (t : ed_type_ovsdb_table) (e : ed_ovsdb_index)
    : ed_type_ovsdb_table :=
  {| table := table t;
     n_indexes := S (n_indexes t);
     indexes := <[n_indexes t := e]> (indexes t) |}.

(** Modelled from the spec: the test of [engine_add_input], whose body is
    in [lib/inc-proc-eng.c], that "a sibling input already bears the same
    source name": whether one of the edges has a source node named [nm]. *)
Fixpoint input_named (nm : option string) (edges : list engine_node_input) : M bool :=
  match edges with
  | [] => ret false
  | e :: edges' =>
      src <- load_node (node e) ;;
      if decide (name src = nm) then ret true else input_named nm edges'
  end.

(** Modelled from the spec: [engine_add_input], whose body is in
    [lib/inc-proc-eng.c]: "appends an edge; it fails (design-level
    precondition) if [node.n_inputs == MAX_INPUTS] or if a sibling input
    already bears the same source name". *)
Definition engine_add_input (node : addr) (input : addr) (change_handler : fn_ptr)
    : M unit :=
  n <- load_node node ;;
  src <- load_node input ;;
  if decide (n_inputs n = ENGINE_MAX_INPUT) then fail AssertFailed
  else
    dup <- input_named (name src) (take (n_inputs n) (inputs n)) ;;
    if (dup : bool) then fail AssertFailed
    else if decide (n_inputs n < length (inputs n))
    then store node (ONode (push_input n {| node := input;
                                            change_handler := change_handler |}))
    else fail Undefined.

(** Modelled from the spec: [engine_ovsdb_node_add_index], whose body is in
    [lib/inc-proc-eng.c]: "[add_index(node, name, idx)] ... bounded by
    [MAX_INDEXES] (256)"; the index is stored in the node's data. *)
Definition engine_ovsdb_node_add_index (node : addr) (name : string) (idx : addr)
    : M unit :=
  n <- load_node node ;;
  ed <- load_table (data n) ;;
  if decide (n_indexes ed = ENGINE_MAX_OVSDB_INDEX) then fail AssertFailed
  else if decide (n_indexes ed < length (indexes ed))
  then store (data n) (OTable (push_index ed {| idx_name := Some name; index := idx |}))
  else fail Undefined.

Section Engine.
(** [is_valid_fn f node w]: what the user's function with symbol [f]
    returns for [node] in [w]; the query is pure. *)
Variable is_valid_fn : string -> addr -> world -> bool.
(** The user's change handlers, by symbol. *)
Variable handler_fn : string -> addr -> addr -> M engine_input_handler_result.

(** Modelled from the spec: the test inside [engine_get_data], whose body
    is in [lib/inc-proc-eng.c], that the node is "in a fresh state (UPDATED
    or UNCHANGED this iteration)". *)
Definition fresh_state (s : engine_node_state) : bool :=
  match s with
  | EN_UPDATED | EN_UNCHANGED => true
  | _ => false
  end.

(** Modelled from the spec: the validity test of [engine_get_data], whose
    body is in [lib/inc-proc-eng.c]: "the node is in a fresh state
    (UPDATED or UNCHANGED this iteration) OR the node defines [is_valid]
    and [is_valid] returns true". *)
Definition engine_node_valid (node : addr) : M bool :=
  n <- load_node node ;;
  if fresh_state (state n) then ret true
  else match is_valid n with
       | Some f => fun w => Ok (is_valid_fn f node w) w
       | None => ret false
       end.

(** Modelled from the spec: [engine_get_data], whose body is in
    [lib/inc-proc-eng.c]: "returns the node's payload only if [the node is
    valid]. Otherwise returns null". *)
Definition engine_get_data (node : addr) : M addr :=
  valid <- engine_node_valid node ;;
  if (valid : bool) then n <- load_node node ;; ret (data n)
  else ret NULL.

(** Modelled from the spec: the call [engine_run], whose body is in
    [lib/inc-proc-eng.c], makes through an edge's change-handler pointer:
    [engine_noop_handler] is the header's own function, every other symbol
    is user code. *)
Definition call_change_handler (f : string) (node data : addr)
    : M engine_input_handler_result :=
  if decide (f = "engine_noop_handler") then engine_noop_handler node data
  else handler_fn f node data.

(** Modelled from the spec: one round of the loop over the inputs of node
    [owner] in an incremental pass of [engine_run], whose body is in
    [lib/inc-proc-eng.c] (traversal algorithm, step 2c).  The result is
    the flags and whether the loop breaks. *)
Definition engine_compute_input (owner : addr) (edge : engine_node_input)
    (fl : compute_flags) : M (compute_flags * bool) :=
  src <- load_node (node edge) ;;
  match state src with
  | EN_UNCHANGED => ret (fl, false)
  | EN_CANCELED =>
      n <- load_node owner ;;
      store owner (ONode (set_state n EN_CANCELED)) ;;;
      ret (fl, true)
  | EN_UPDATED =>
      match change_handler edge with
      | None =>
          ret ({| needs_recompute := true;
                  any_handled_update := any_handled_update fl;
                  all_handled_unchanged := all_handled_unchanged fl |}, true)
      | Some h =>
          n <- load_node owner ;;
          r <- call_change_handler h owner (data n) ;;
          match r with
          | EN_UNHANDLED =>
              ret ({| needs_recompute := true;
                      any_handled_update := any_handled_update fl;
                      all_handled_unchanged := all_handled_unchanged fl |}, true)
          | EN_HANDLED_UPDATED =>
              ret ({| needs_recompute := needs_recompute fl;
                      any_handled_update := true;
                      all_handled_unchanged := false |}, false)
          | EN_HANDLED_UNCHANGED => ret (fl, false)
          end
      end
  | EN_STALE | EN_STATE_MAX => ret (fl, false)
  end.

(** Modelled from the spec: the loop of step 2c over the inputs "in
    registration order". *)
Fixpoint engine_compute_inputs (owner : addr) (edges : list engine_node_input)
    (fl : compute_flags) : M compute_flags :=
  match edges with
  | [] => ret fl
  | edge :: edges' =>
      r <- engine_compute_input owner edge fl ;;
      if (r.2 : bool) then ret r.1 else engine_compute_inputs owner edges' r.1
  end.
End Engine.

(** ** Bounds as an invariant of the object store *)

Definition node_bounded (n : engine_node) : Prop :=
  length (inputs n) = ENGINE_MAX_INPUT ∧ (n_inputs n ≤ ENGINE_MAX_INPUT)%nat.

Definition table_bounded (t : ed_type_ovsdb_table) : Prop :=
  length (indexes t) = ENGINE_MAX_OVSDB_INDEX ∧ (n_indexes t ≤ ENGINE_MAX_OVSDB_INDEX)%nat.

Definition object_bounded (o : object) : Prop :=
  match o with
  | ONode n => node_bounded n
  | OTable t => table_bounded t
  | OArg _ | OIdl _ => True
  end.

#[global] Instance object_bounded_dec o : Decision (object_bounded o).
Proof. destruct o; unfold object_bounded, node_bounded, table_bounded; apply _. Defined.

Definition world_bounded (w : world) : Prop :=
  map_Forall (fun _ o => object_bounded o) (mem w).

(** A world before [engine_init]: every node in it is one a definition
    macro defines, and no leaf payload has been allocated yet. *)
Definition static_object (o : object) : Prop :=
  match o with
  | ONode n => ∃ d, macro_defined d ∧ n = node_of d
  | OTable _ => False
  | OArg _ | OIdl _ => True
  end.

Definition static_world (w : world) : Prop :=
  map_Forall (fun _ o => static_object o) (mem w).

(** Modelled from the spec: the writes of [engine_init_run] and
    [engine_run], whose bodies are in [lib/inc-proc-eng.c], to the state of
    one node: "resets per-iteration state to STALE", "mark N CANCELED". *)
Definition engine_set_node_state (node : addr) (s : engine_node_state) : M unit :=
  n <- load_node node ;;
  store node (ONode (set_state n s)).

(** [stats.recompute++] on a [uint64_t]. *)
Definition count_recompute (n : engine_node) : engine_node :=
  {| name := name n;
     n_inputs := n_inputs n;
     inputs := inputs n;
     data := data n;
     state := state n;
     init := init n;
     cleanup := cleanup n;
     run := run n;
     is_valid := is_valid n;
     clear_tracked_data := clear_tracked_data n;
     get_compute_failure_info := get_compute_failure_info n;
     stats := {| recompute := (recompute (stats n) + 1) mod 2 ^ 64;
                 compute := compute (stats n);
                 cancel := cancel (stats n) |} |}.

(** Modelled from the spec: the recompute of a leaf node by [engine_run],
    whose body is in [lib/inc-proc-eng.c] (traversal algorithm, step 2b):
    "invoke [N.run(N, N.data)]; record returned state; increment
    [stats.recompute]", for a node whose [run] is the callback
    [ENGINE_FUNC_OVSDB] generates. *)
Definition engine_recompute_leaf (rec_table : ovsdb_idl_table_class) (node : addr)
    : M unit :=
  n <- load_node node ;;
  s <- en_DB_NAME_TBL_NAME_run rec_table node (data n) ;;
  n' <- load_node node ;;
  store node (ONode (count_recompute (set_state n' s))).

(** The counters of [stats] set to zero. *)
Definition reset_stats (n : engine_node) : engine_node :=
  {| name := name n;
     n_inputs := n_inputs n;
     inputs := inputs n;
     data := data n;
     state := state n;
     init := init n;
     cleanup := cleanup n;
     run := run n;
     is_valid := is_valid n;
     clear_tracked_data := clear_tracked_data n;
     get_compute_failure_info := get_compute_failure_info n;
     stats := {| recompute := 0; compute := 0; cancel := 0 |} |}.

(** Modelled from the spec: what [engine_init], whose body is in
    [lib/inc-proc-eng.c], does at one leaf node: "calls each [init] exactly
    once; sets [data]; resets stats", for a node whose [init] is the
    callback [ENGINE_FUNC_OVSDB] generates. *)
Definition engine_init_leaf (DB_NAME : db_name) (node arg : addr) : M unit :=
  p <- en_DB_NAME_TBL_NAME_init DB_NAME node arg ;;
  n <- load_node node ;;
  store node (ONode (reset_stats (designate n (D_data p)))).

(** The operations of this interface that write to the object store. *)
Inductive engine_op :=
| Op_add_input (node input : addr) (change_handler : fn_ptr)
| Op_add_index (node : addr) (name : string) (idx : addr)
| Op_leaf_init (DB_NAME : db_name) (node arg : addr)
| Op_leaf_recompute (rec_table : ovsdb_idl_table_class) (node : addr)
| Op_reset (node : addr)
| Op_cancel (node : addr).

Definition run_op (op : engine_op) : M unit :=
  match op with
  | Op_add_input node input h => engine_add_input node input h
  | Op_add_index node name idx => engine_ovsdb_node_add_index node name idx
  | Op_leaf_init DB_NAME node arg => engine_init_leaf DB_NAME node arg
  | Op_leaf_recompute rec_table node => engine_recompute_leaf rec_table node
  | Op_reset node => engine_set_node_state node EN_STALE
  | Op_cancel node => engine_set_node_state node EN_CANCELED
  end.

(** The worlds the operations reach from a static one. *)
Inductive reachable : world -> Prop :=
| reach_static w : static_world w -> reachable w
| reach_op w op w' : reachable w -> run_op op w = Ok tt w' -> reachable w'.

(** A sequence of operations, one after the other. *)
Fixpoint run_ops (ops : list engine_op) : M unit :=
  match ops with
  | [] => ret tt
  | op :: ops' => run_op op ;;; run_ops ops'
  end.

(** Every node of the world is in one of the four states. *)
Definition states_valid (w : world) : Prop :=
  map_Forall (fun _ o => match o with
                         | ONode n => state n ∈ node_states
                         | _ => True
                         end) (mem w).

(** ** What the diagnostic reports, in the specification's terms

    The specification describes [compute_failure_info] as classifying each
    tracked row as inserted, deleted or updated and recording, for an
    update, the names of the changed columns.  These definitions say that
    directly; the properties below compare them with the callback. *)

Inductive row_change :=
| Row_New
| Row_Deleted
| Row_Updated (changed : list string).

(** The names of the columns of [row] that changed, in column order. *)
Definition changed_columns (rec_columns : list ovsdb_idl_column)
    (row : ovsdb_idl_row) : list string :=
  omap (fun i => if ovsdb_idl_track_is_updated row i
                 then col_name <$> rec_columns !! i
                 else None)
       (seq 0 (n_columns (row_class row))).

(** The priority of the classification: insert, then delete, then
    update. *)
Definition classify_row (rec_columns : list ovsdb_idl_column)
    (row : ovsdb_idl_row) : row_change :=
  if decide (0 < insert_seqno row)%N then Row_New
  else if decide (0 < delete_seqno row)%N then Row_Deleted
  else Row_Updated (changed_columns rec_columns row).

(** The column names as the diagnostic lists them: each preceded by a
    space, separated by commas. *)
Fixpoint column_list (names : list string) : string :=
  match names with
  | [] => EmptyString
  | [c] => " " +:+ c
  | c :: names' => " " +:+ c +:+ "," +:+ column_list names'
  end.

(** The text reported for a row of table [label] with uuid text [id]. *)
Definition report_row (label id : string) (c : row_change) : string :=
  match c with
  | Row_New => label +:+ " (New) " +:+ id +:+ LF
  | Row_Deleted => label +:+ " (Deleted) " +:+ id +:+ LF
  | Row_Updated changed =>
      label +:+ " (Updated) " +:+ id +:+ " columns:" +:+ column_list changed
  end.

(** The first line of the diagnostic. *)
Definition report_header (node_name : string) : string :=
  "Node " +:+ DQUOTE +:+ node_name +:+ DQUOTE +:+ " compute failure info:" +:+ LF.

Fixpoint concat_strings (l : list string) : string :=
  match l with
  | [] => EmptyString
  | s :: l' => s +:+ concat_strings l'
  end.

(** The world after one more line in the debug log. *)
Definition logged (w : world) (msg : string) : world :=
  {| mem := mem w;
     vlog_dbg_enabled := vlog_dbg_enabled w;
     vlog := vlog w ++ [msg] |}.

(** ** The functions a leaf macro defines, and calls through pointers

    [ENGINE_FUNC_OVSDB(DB_NAME, TBL_NAME)] defines four static functions
    whose identifiers paste the two tokens; a node definition refers to
    them by identifier.  A [callback] is one such function with its C
    type. *)

Inductive callback :=
| CB_run (f : addr -> addr -> M engine_node_state)
| CB_init (f : addr -> addr -> M addr)
| CB_cleanup (f : addr -> M unit)
| CB_compute_failure_info (f : addr -> M unit).

(** The function definitions [ENGINE_FUNC_OVSDB(DB_NAME, TBL_NAME)] expands
    to, in the order of the macro body: the identifier
    [en_##DB_NAME##_##TBL_NAME##_<suffix>] and the function. *)
Definition ENGINE_FUNC_OVSDB (DB_NAME : db_name) (TBL_NAME : string)
    (rec_table : ovsdb_idl_table_class) (rec_columns : list ovsdb_idl_column)
    (UUID_FMT : uuid_t -> string) : list (string * callback) :=
  [ ("en_" +:+ db_token DB_NAME +:+ "_" +:+ TBL_NAME +:+ "_run",
     CB_run (en_DB_NAME_TBL_NAME_run rec_table));
    ("en_" +:+ db_token DB_NAME +:+ "_" +:+ TBL_NAME +:+ "_init",
     CB_init (en_DB_NAME_TBL_NAME_init DB_NAME));
    ("en_" +:+ db_token DB_NAME +:+ "_" +:+ TBL_NAME +:+ "_cleanup",
     CB_cleanup en_DB_NAME_TBL_NAME_cleanup);
    ("en_" +:+ db_token DB_NAME +:+ "_" +:+ TBL_NAME +:+ "_compute_failure_info",
     CB_compute_failure_info
       (en_DB_NAME_TBL_NAME_compute_failure_info DB_NAME TBL_NAME rec_table
          rec_columns UUID_FMT)) ].

(** [ENGINE_FUNC_SB], [ENGINE_FUNC_NB], [ENGINE_FUNC_OVS]. *)
Definition ENGINE_FUNC_SB := ENGINE_FUNC_OVSDB sb.
Definition ENGINE_FUNC_NB := ENGINE_FUNC_OVSDB nb.
Definition ENGINE_FUNC_OVS := ENGINE_FUNC_OVSDB ovs.

(** The function an identifier names among the definitions of a
    translation unit. *)
Fixpoint lookup_symbol (defs : list (string * callback)) (f : string)
    : option callback :=
  match defs with
  | [] => None
  | (g, c) :: defs' => if decide (f = g) then Some c else lookup_symbol defs' f
  end.

(** The function a function pointer points to; none for a null pointer. *)
Definition resolve (defs : list (string * callback)) (p : fn_ptr) : option callback :=
  match p with
  | Some f => lookup_symbol defs f
  | None => None
  end.

(** ** A small instance

    One south-bound table, [chassis], with three columns and three tracked
    rows; the node [en_sb_chassis] as [ENGINE_NODE_SB(chassis)] defines it,
    before and after its data has been initialised. *)

Module Example.
Local Open Scope N_scope.

Definition chassis_table : ovsdb_idl_table_class :=
  {| tc_name := "chassis"; n_columns := 3%nat |}.

Definition chassis_columns : list ovsdb_idl_column :=
  [ {| col_name := "name" |}; {| col_name := "hostname" |}; {| col_name := "encaps" |} ].

(** A stand-in for the text of a uuid. *)
Definition uuid_text (u : uuid_t) : string :=
  match parts0 u with
  | 1%N => "u1"
  | 2%N => "u2"
  | 3%N => "u3"
  | _ => "u"
  end.

Definition uuid_of (k : N) : uuid_t :=
  {| parts0 := k; parts1 := 0; parts2 := 0; parts3 := 0 |}.

(** Updated columns 0 and 2. *)
Definition row_updated : ovsdb_idl_row :=
  Build_ovsdb_idl_row (uuid_of 3) chassis_table 0 9 0 5 None.

Definition row_deleted : ovsdb_idl_row :=
  Build_ovsdb_idl_row (uuid_of 2) chassis_table 0 0 8 0 (Some row_updated).

(** Inserted and deleted since the last run. *)
Definition row_inserted : ovsdb_idl_row :=
  Build_ovsdb_idl_row (uuid_of 1) chassis_table 7 0 8 0 (Some row_deleted).

Definition idl_changed : ovsdb_idl :=
  {| track_first := {[ "chassis" := row_inserted ]} |}.

Definition idl_quiet : ovsdb_idl :=
  {| track_first := ∅ |}.

Definition arg0 : engine_arg :=
  {| sb_idl := 4; nb_idl := 8; ovs_idl := 9 |}.

Definition en_sb_chassis : engine_node := node_of (ENGINE_NODE_SB "chassis").

(** The world before [engine_init]: the node at 1, the init argument at
    2, the south-bound IDL at 4. *)
Definition w_static (idl : ovsdb_idl) (dbg : bool) : world :=
  {| mem := <[1%N := ONode en_sb_chassis]>
              (<[2%N := OArg arg0]> (<[4%N := OIdl idl]> ∅));
     vlog_dbg_enabled := dbg;
     vlog := [] |}.

(** The node once its [data] points to the payload at 5. *)
Definition en_sb_chassis_ready : engine_node := designate en_sb_chassis (D_data 5).

Definition payload : ed_type_ovsdb_table :=
  {| table := 4; n_indexes := 0%nat; indexes := indexes ed_type_ovsdb_table_zero |}.

Definition w_ready (idl : ovsdb_idl) (dbg : bool) : world :=
  {| mem := <[1%N := ONode en_sb_chassis_ready]>
              (<[2%N := OArg arg0]>
                 (<[4%N := OIdl idl]> (<[5%N := OTable payload]> ∅)));
     vlog_dbg_enabled := dbg;
     vlog := [] |}.

(** A node whose input array is full, and one it could depend on. *)
Definition en_full : engine_node :=
  Build_engine_node (Some "full") ENGINE_MAX_INPUT (inputs engine_node_zero) NULL
    EN_STALE None None None None None None (stats engine_node_zero).

Definition w_full : world :=
  {| mem := <[1%N := ONode en_sb_chassis]> (<[7%N := ONode en_full]> ∅);
     vlog_dbg_enabled := false;
     vlog := [] |}.

(** The table node after a run that saw a change, and a node that
    depends on it through the no-op handler. *)
Definition en_sb_chassis_updated : engine_node :=
  set_state en_sb_chassis_ready EN_UPDATED.

Definition en_flow_wired : engine_node :=
  push_input (node_of (ENGINE_NODE1 "flow"))
    {| node := 1; change_handler := Some "engine_noop_handler" |}.

Definition w_wired : world :=
  {| mem := <[1%N := ONode en_sb_chassis_updated]> (<[7%N := ONode en_flow_wired]> ∅);
     vlog_dbg_enabled := false;
     vlog := [] |}.

(** A session: [engine_init] at the table node, an index registered on
    it, the node wired as an input of [en_flow] at 3, then a run that sees
    the tracked rows while [en_flow] is canceled. *)
Definition en_flow : engine_node := node_of (ENGINE_NODE1 "flow").

Definition w_start : world :=
  {| mem := <[1%N := ONode en_sb_chassis]>
              (<[2%N := OArg arg0]>
                 (<[3%N := ONode en_flow]> (<[4%N := OIdl idl_changed]> ∅)));
     vlog_dbg_enabled := false;
     vlog := [] |}.

Definition session : list engine_op :=
  [ Op_leaf_init sb 1 2;
    Op_add_index 1 "chassis_by_name" 9;
    Op_add_input 3 1 (Some "engine_noop_handler");
    Op_leaf_recompute chassis_table 1;
    Op_cancel 3 ].

Definition en_sb_chassis_after : engine_node :=
  count_recompute (set_state (reset_stats (designate en_sb_chassis (D_data 5))) EN_UPDATED).

Definition en_flow_after : engine_node :=
  set_state (push_input en_flow {| node := 1; change_handler := Some "engine_noop_handler" |})
            EN_CANCELED.

Definition payload_after : ed_type_ovsdb_table :=
  push_index payload {| idx_name := Some "chassis_by_name"; index := 9 |}.

Definition w_end : world :=
  {| mem := <[1%N := ONode en_sb_chassis_after]>
              (<[2%N := OArg arg0]>
                 (<[3%N := ONode en_flow_after]>
                    (<[4%N := OIdl idl_changed]> (<[5%N := OTable payload_after]> ∅))));
     vlog_dbg_enabled := false;
     vlog := [] |}.


(** Two leaves: the south-bound table node at 1 with its payload at 5, and
    a north-bound table node at 6 with its payload at 7 on a quiet IDL at
    8. *)
Definition port_table : ovsdb_idl_table_class :=
  {| tc_name := "port"; n_columns := 0%nat |}.

Definition en_nb_port_ready : engine_node :=
  designate (node_of (ENGINE_NODE_NB "port")) (D_data 7).

Definition w_two_leaves (dbg : bool) : world :=
  {| mem := <[1%N := ONode en_sb_chassis_ready]>
              (<[4%N := OIdl idl_changed]>
                 (<[5%N := OTable payload]>
                    (<[6%N := ONode en_nb_port_ready]>
                       (<[7%N := OTable {| table := 8; n_indexes := 0%nat;
                                           indexes := indexes ed_type_ovsdb_table_zero |}]>
                          (<[8%N := OIdl idl_quiet]> ∅)))));
     vlog_dbg_enabled := dbg;
     vlog := [] |}.
End Example.

(** * Properties *)

(** ** The monad *)

Lemma bind_ok {A B} (c : M A) (k : A -> M B) w a w' :
  c w = Ok a w' -> bind c k w = k a w'.
Proof. intros H. unfold bind. now rewrite H. Qed.

Lemma bind_inv {A B} (c : M A) (k : A -> M B) w b w' :
  bind c k w = Ok b w' -> exists a w1, c w = Ok a w1 /\ k a w1 = Ok b w'.
Proof.
  unfold bind. destruct (c w) as [a w1|f] eqn:E; [eauto | discriminate].
Qed.

Lemma load_ok p o w : mem w !! p = Some o -> load p w = Ok o w.
Proof. intros H. unfold load. now rewrite H. Qed.

Lemma load_inv p o w w' : load p w = Ok o w' -> mem w !! p = Some o /\ w' = w.
Proof.
  unfold load. destruct (mem w !! p) eqn:E; [|discriminate].
  intros [= -> ->]. auto.
Qed.

Lemma load_node_ok p n w : mem w !! p = Some (ONode n) -> load_node p w = Ok n w.
Proof. intros H. unfold load_node. now rewrite (bind_ok _ _ _ _ _ (load_ok _ _ _ H)). Qed.

Lemma load_table_ok p t w : mem w !! p = Some (OTable t) -> load_table p w = Ok t w.
Proof. intros H. unfold load_table. now rewrite (bind_ok _ _ _ _ _ (load_ok _ _ _ H)). Qed.

Lemma load_arg_ok p a w : mem w !! p = Some (OArg a) -> load_arg p w = Ok a w.
Proof. intros H. unfold load_arg. now rewrite (bind_ok _ _ _ _ _ (load_ok _ _ _ H)). Qed.

Lemma load_idl_ok p i w : mem w !! p = Some (OIdl i) -> load_idl p w = Ok i w.
Proof. intros H. unfold load_idl. now rewrite (bind_ok _ _ _ _ _ (load_ok _ _ _ H)). Qed.

Lemma load_node_inv p n w w' :
  load_node p w = Ok n w' -> mem w !! p = Some (ONode n) /\ w' = w.
Proof.
  intros H. apply bind_inv in H as (o & w1 & H1 & H2).
  apply load_inv in H1 as [H1 ->]. destruct o; try discriminate.
  injection H2 as -> ->. auto.
Qed.

Lemma load_table_inv p t w w' :
  load_table p w = Ok t w' -> mem w !! p = Some (OTable t) /\ w' = w.
Proof.
  intros H. apply bind_inv in H as (o & w1 & H1 & H2).
  apply load_inv in H1 as [H1 ->]. destruct o; try discriminate.
  injection H2 as -> ->. auto.
Qed.

Lemma load_arg_inv p a w w' :
  load_arg p w = Ok a w' -> mem w !! p = Some (OArg a) /\ w' = w.
Proof.
  intros H. apply bind_inv in H as (o & w1 & H1 & H2).
  apply load_inv in H1 as [H1 ->]. destruct o; try discriminate.
  injection H2 as -> ->. auto.
Qed.

Lemma load_idl_inv p i w w' :
  load_idl p w = Ok i w' -> mem w !! p = Some (OIdl i) /\ w' = w.
Proof.
  intros H. apply bind_inv in H as (o & w1 & H1 & H2).
  apply load_inv in H1 as [H1 ->]. destruct o; try discriminate.
  injection H2 as -> ->. auto.
Qed.

Lemma EN_OVSDB_GET_ok node n t w :
  mem w !! node = Some (ONode n) ->
  mem w !! data n = Some (OTable t) ->
  EN_OVSDB_GET node w = Ok (table t) w.
Proof.
  intros Hn Ht. unfold EN_OVSDB_GET.
  rewrite (bind_ok _ _ _ _ _ (load_node_ok _ _ _ Hn)).
  now rewrite (bind_ok _ _ _ _ _ (load_table_ok _ _ _ Ht)).
Qed.

Lemma EN_OVSDB_GET_inv node p w w' :
  EN_OVSDB_GET node w = Ok p w' ->
  w' = w /\ exists n t, mem w !! node = Some (ONode n) /\
                        mem w !! data n = Some (OTable t) /\ p = table t.
Proof.
  intros H. apply bind_inv in H as (n & w1 & H1 & H).
  apply load_node_inv in H1 as [Hn ->].
  apply bind_inv in H as (t & w2 & H2 & H).
  apply load_table_inv in H2 as [Ht ->].
  injection H as <- <-. eauto 6.
Qed.

Lemma track_get_first_ok idl i class w :
  mem w !! idl = Some (OIdl i) ->
  ovsdb_idl_track_get_first idl class w = Ok (track_first i !! tc_name class) w.
Proof.
  intros H. unfold ovsdb_idl_track_get_first.
  now rewrite (bind_ok _ _ _ _ _ (load_idl_ok _ _ _ H)).
Qed.

Lemma track_get_first_inv idl class first w w' :
  ovsdb_idl_track_get_first idl class w = Ok first w' -> w' = w.
Proof.
  intros H. apply bind_inv in H as (i & w1 & H1 & H).
  apply load_idl_inv in H1 as [_ ->]. now injection H as _ <-.
Qed.

(** ** The enumerations *)

(** C3: the handler-result enumeration has exactly the three values
    UNHANDLED, HANDLED_UPDATED and HANDLED_UNCHANGED, with three distinct
    numbers, and the numbers of HANDLED_UPDATED and HANDLED_UNCHANGED are
    those of the node states UPDATED and UNCHANGED. *)
Theorem handler_result_enumeration :
  (forall r : engine_input_handler_result,
     r = EN_UNHANDLED \/ r = EN_HANDLED_UPDATED \/ r = EN_HANDLED_UNCHANGED) /\
  NoDup (engine_input_handler_result_val <$>
           [EN_UNHANDLED; EN_HANDLED_UPDATED; EN_HANDLED_UNCHANGED]) /\
  engine_input_handler_result_val EN_HANDLED_UPDATED
    = engine_node_state_val EN_UPDATED /\
  engine_input_handler_result_val EN_HANDLED_UNCHANGED
    = engine_node_state_val EN_UNCHANGED /\
  engine_input_handler_result_val EN_UNHANDLED = (-1)%Z /\
  engine_node_state_val EN_UPDATED = 1%Z /\
  engine_node_state_val EN_UNCHANGED = 2%Z.
Proof.
  split; [intros []; auto|].
  split; [|repeat split; reflexivity].
  apply (bool_decide_unpack _). reflexivity.
Qed.

(** ** Static node definitions *)

Lemma static_init_app ds ds' :
  static_init (ds ++ ds') = fold_left designate ds' (static_init ds).
Proof. unfold static_init. apply fold_left_app. Qed.

Lemma DEF_START_state_data NAME NAME_STR :
  state (node_of (ENGINE_NODE_DEF_START NAME NAME_STR)) = EN_STALE /\
  data (node_of (ENGINE_NODE_DEF_START NAME NAME_STR)) = NULL.
Proof. split; reflexivity. Qed.

Lemma expand_arg_keeps ARG NAME n :
  state (designate n (expand_arg ARG NAME)) = state n /\
  data (designate n (expand_arg ARG NAME)) = data n.
Proof. destruct ARG; split; reflexivity. Qed.

Lemma macro_defined_state_data d :
  macro_defined d -> state (node_of d) = EN_STALE /\ data (node_of d) = NULL.
Proof.
  intros Hd. destruct Hd as [NAME ARGS d H | DB_NAME DB_NAME_STR TBL_NAME TBL_NAME_STR].
  - destruct ARGS as [|ARG1 [|ARG2 [|? ?]]]; cbn in H; try discriminate;
      injection H as <-.
    + apply DEF_START_state_data.
    + unfold node_of, ENGINE_NODE2, more. cbn [initializer].
      rewrite static_init_app. cbn [fold_left].
      destruct (expand_arg_keeps ARG1 NAME
                  (static_init (initializer (ENGINE_NODE_DEF_START NAME NAME))))
        as [-> ->].
      apply DEF_START_state_data.
    + unfold node_of, ENGINE_NODE3, more. cbn [initializer].
      rewrite static_init_app. cbn [fold_left].
      destruct (expand_arg_keeps ARG2 NAME
                  (designate (static_init (initializer (ENGINE_NODE_DEF_START NAME NAME)))
                             (expand_arg ARG1 NAME))) as [-> ->].
      destruct (expand_arg_keeps ARG1 NAME
                  (static_init (initializer (ENGINE_NODE_DEF_START NAME NAME))))
        as [-> ->].
      apply DEF_START_state_data.
  - split; reflexivity.
Qed.

Lemma fold_designate_inputs ds n :
  inputs (fold_left designate ds n) = inputs n /\
  n_inputs (fold_left designate ds n) = n_inputs n.
Proof.
  revert n. induction ds as [|d ds IH]; intros n; [auto|].
  cbn [fold_left]. destruct (IH (designate n d)) as [-> ->].
  destruct d; auto.
Qed.

Lemma static_init_bounded ds : node_bounded (static_init ds).
Proof.
  unfold node_bounded, static_init.
  destruct (fold_designate_inputs ds engine_node_zero) as [-> ->].
  unfold engine_node_zero. cbn [inputs n_inputs]. rewrite length_replicate.
  split; [reflexivity | lia].
Qed.

Lemma push_input_bounded n e :
  node_bounded n -> n_inputs n <> ENGINE_MAX_INPUT -> node_bounded (push_input n e).
Proof.
  unfold node_bounded. intros [Hl Hn] Hne. cbn.
  rewrite length_insert. split; [assumption | lia].
Qed.

Lemma push_index_bounded t e :
  table_bounded t -> n_indexes t <> ENGINE_MAX_OVSDB_INDEX ->
  table_bounded (push_index t e).
Proof.
  unfold table_bounded. intros [Hl Hn] Hne. cbn.
  rewrite length_insert. split; [assumption | lia].
Qed.

Lemma ed_type_ovsdb_table_zero_bounded : table_bounded ed_type_ovsdb_table_zero.
Proof.
  unfold table_bounded, ed_type_ovsdb_table_zero. cbn [indexes n_indexes].
  rewrite length_replicate. split; [reflexivity | lia].
Qed.

(** ** What the writing operations do to the store *)

Lemma store_inv p o w w' :
  store p o w = Ok tt w' ->
  is_Some (mem w !! p) /\ w' = set_mem w (<[p := o]> (mem w)).
Proof.
  unfold store. destruct (mem w !! p) eqn:E; [|discriminate].
  intros [= <-]. eauto.
Qed.

Lemma store_ok p o o' w :
  mem w !! p = Some o' -> store p o w = Ok tt (set_mem w (<[p := o]> (mem w))).
Proof. intros H. unfold store. now rewrite H. Qed.

Lemma input_named_inv nm edges b w w' :
  input_named nm edges w = Ok b w' -> w' = w.
Proof.
  revert w. induction edges as [|e edges IH]; intros w H.
  - now injection H as _ <-.
  - cbn in H. apply bind_inv in H as (src & w1 & H1 & H).
    apply load_node_inv in H1 as [_ ->].
    destruct (decide (name src = nm)); [now injection H as _ <- | eauto].
Qed.

Lemma engine_add_input_inv node input h w w' :
  engine_add_input node input h w = Ok tt w' ->
  exists n, mem w !! node = Some (ONode n) /\
            n_inputs n <> ENGINE_MAX_INPUT /\
            n_inputs n < length (inputs n) /\
            w' = set_mem w (<[node := ONode (push_input n {| node := input;
                                                             change_handler := h |})]>
                              (mem w)).
Proof.
  intros H. apply bind_inv in H as (n & w1 & H1 & H).
  apply load_node_inv in H1 as [Hn ->].
  apply bind_inv in H as (src & w1 & H1 & H).
  apply load_node_inv in H1 as [_ ->].
  destruct (decide (n_inputs n = ENGINE_MAX_INPUT)) as [|Hne]; [discriminate|].
  apply bind_inv in H as (dup & w1 & H1 & H).
  apply input_named_inv in H1 as ->.
  destruct dup; [discriminate|].
  destruct (decide (n_inputs n < length (inputs n))) as [Hlt|]; [|discriminate].
  apply store_inv in H as [_ ->]. eauto.
Qed.

Lemma engine_ovsdb_node_add_index_inv node nm idx w w' :
  engine_ovsdb_node_add_index node nm idx w = Ok tt w' ->
  exists n ed, mem w !! node = Some (ONode n) /\
               mem w !! data n = Some (OTable ed) /\
               n_indexes ed <> ENGINE_MAX_OVSDB_INDEX /\
               w' = set_mem w (<[data n := OTable (push_index ed {| idx_name := Some nm;
                                                                    index := idx |})]>
                                 (mem w)).
Proof.
  intros H. apply bind_inv in H as (n & w1 & H1 & H).
  apply load_node_inv in H1 as [Hn ->].
  apply bind_inv in H as (ed & w1 & H1 & H).
  apply load_table_inv in H1 as [Hed ->].
  destruct (decide (n_indexes ed = ENGINE_MAX_OVSDB_INDEX)) as [|Hne]; [discriminate|].
  destruct (decide (n_indexes ed < length (indexes ed))); [|discriminate].
  apply store_inv in H as [_ ->]. eauto 6.
Qed.

(** The payload a leaf's [init] builds for the IDL [idl]. *)
Lemma leaf_init_ok DB_NAME node arg a w :
  mem w !! arg = Some (OArg a) ->
  let p := fresh ({[NULL]} ∪ dom (mem w)) in
  en_DB_NAME_TBL_NAME_init DB_NAME node arg w
  = Ok p (set_mem w (<[p := OTable {| table := rec_table_get (DB_NAME_idl DB_NAME a);
                                      n_indexes := 0;
                                      indexes := indexes ed_type_ovsdb_table_zero |}]>
                       (mem w))).
Proof.
  intros Ha p. unfold en_DB_NAME_TBL_NAME_init.
  rewrite (bind_ok _ _ _ _ _ (load_arg_ok _ _ _ Ha)).
  unfold bind at 1. unfold xzalloc. fold p.
  erewrite bind_ok; [|apply load_table_ok; cbn; apply lookup_insert_eq].
  erewrite bind_ok; [|eapply store_ok; cbn; apply lookup_insert_eq].
  unfold ret, set_mem. cbn. now rewrite insert_insert_eq.
Qed.

Lemma leaf_init_inv DB_NAME node arg w p w' :
  en_DB_NAME_TBL_NAME_init DB_NAME node arg w = Ok p w' ->
  exists a, mem w !! arg = Some (OArg a) /\
            p = fresh ({[NULL]} ∪ dom (mem w)) /\
            w' = set_mem w (<[p := OTable {| table := rec_table_get (DB_NAME_idl DB_NAME a);
                                             n_indexes := 0;
                                             indexes := indexes ed_type_ovsdb_table_zero |}]>
                              (mem w)).
Proof.
  intros H. pose proof H as H'. apply bind_inv in H' as (a & w1 & H1 & _).
  apply load_arg_inv in H1 as [Ha ->].
  rewrite (leaf_init_ok DB_NAME node arg a w Ha) in H.
  injection H as <- <-. eauto.
Qed.

Lemma fresh_block w :
  let p := fresh ({[NULL]} ∪ dom (mem w)) in
  p <> NULL /\ mem w !! p = None.
Proof.
  intros p. pose proof (is_fresh ({[NULL]} ∪ dom (mem w))) as H. fold p in H.
  split.
  - intros E. apply H. rewrite E. set_solver.
  - apply not_elem_of_dom. set_solver.
Qed.

(** ** The leaf's [run] *)

Lemma leaf_run_ok rec_table node d n t first w :
  mem w !! node = Some (ONode n) ->
  mem w !! data n = Some (OTable t) ->
  rec_table_track_get_first rec_table (table t) w = Ok first w ->
  en_DB_NAME_TBL_NAME_run rec_table node d w
  = Ok (if first is Some _ then EN_UPDATED else EN_UNCHANGED) w.
Proof.
  intros Hn Ht Hfirst. unfold en_DB_NAME_TBL_NAME_run.
  rewrite (bind_ok _ _ _ _ _ (EN_OVSDB_GET_ok _ _ _ _ Hn Ht)).
  rewrite (bind_ok _ _ _ _ _ Hfirst). now destruct first.
Qed.

Lemma leaf_run_inv rec_table node d s w w' :
  en_DB_NAME_TBL_NAME_run rec_table node d w = Ok s w' ->
  (s = EN_UPDATED \/ s = EN_UNCHANGED) /\ w' = w.
Proof.
  intros H. apply bind_inv in H as (tbl & w1 & H1 & H).
  apply EN_OVSDB_GET_inv in H1 as [-> _].
  apply bind_inv in H as (first & w1 & H1 & H).
  apply track_get_first_inv in H1 as ->.
  destruct first; injection H as <- <-; auto.
Qed.

(** ** The bounds and the states in every reachable world *)

Lemma engine_set_node_state_inv node s w w' :
  engine_set_node_state node s w = Ok tt w' ->
  exists n, mem w !! node = Some (ONode n) /\
            w' = set_mem w (<[node := ONode (set_state n s)]> (mem w)).
Proof.
  intros H. apply bind_inv in H as (n & w1 & H1 & H).
  apply load_node_inv in H1 as [Hn ->].
  apply store_inv in H as [_ ->]. eauto.
Qed.

Lemma engine_recompute_leaf_inv rec_table node w w' :
  engine_recompute_leaf rec_table node w = Ok tt w' ->
  exists n s, mem w !! node = Some (ONode n) /\
              (s = EN_UPDATED \/ s = EN_UNCHANGED) /\
              w' = set_mem w (<[node := ONode (count_recompute (set_state n s))]> (mem w)).
Proof.
  intros H. apply bind_inv in H as (n & w1 & H1 & H).
  apply load_node_inv in H1 as [Hn ->].
  apply bind_inv in H as (s & w1 & H1 & H).
  apply leaf_run_inv in H1 as [Hs ->].
  apply bind_inv in H as (n' & w1 & H1 & H).
  apply load_node_inv in H1 as [Hn' ->].
  assert (n' = n) as -> by congruence.
  apply store_inv in H as [_ ->]. eauto 6.
Qed.

Lemma engine_init_leaf_inv DB_NAME node arg w w' :
  engine_init_leaf DB_NAME node arg w = Ok tt w' ->
  exists a n p,
    mem w !! arg = Some (OArg a) /\
    mem w !! node = Some (ONode n) /\
    p = fresh ({[NULL]} ∪ dom (mem w)) /\
    let w1 := set_mem w (<[p := OTable {| table := rec_table_get (DB_NAME_idl DB_NAME a);
                                          n_indexes := 0;
                                          indexes := indexes ed_type_ovsdb_table_zero |}]>
                           (mem w)) in
    w' = set_mem w1 (<[node := ONode (reset_stats (designate n (D_data p)))]> (mem w1)).
Proof.
  intros H. apply bind_inv in H as (p & w1 & H1 & H).
  apply leaf_init_inv in H1 as (a & Ha & Hp & ->).
  apply bind_inv in H as (n & w2 & H2 & H).
  apply load_node_inv in H2 as [Hn ->].
  apply store_inv in H as [_ ->].
  exists a, n, p. repeat split; try assumption.
  cbn [mem set_mem] in Hn. rewrite lookup_insert in Hn.
  destruct (decide (p = node)); [discriminate | assumption].
Qed.

Lemma insert_node_bounded w node n' :
  world_bounded w -> node_bounded n' ->
  world_bounded (set_mem w (<[node := ONode n']> (mem w))).
Proof. intros Hw Hn. unfold world_bounded. cbn. now apply map_Forall_insert_2. Qed.

Lemma insert_table_bounded w p t :
  world_bounded w -> table_bounded t ->
  world_bounded (set_mem w (<[p := OTable t]> (mem w))).
Proof. intros Hw Ht. unfold world_bounded. cbn. now apply map_Forall_insert_2. Qed.

Lemma insert_node_states w node n' :
  states_valid w -> state n' ∈ node_states ->
  states_valid (set_mem w (<[node := ONode n']> (mem w))).
Proof. intros Hw Hn. unfold states_valid. cbn. now apply map_Forall_insert_2. Qed.

Lemma insert_table_states w p t :
  states_valid w -> states_valid (set_mem w (<[p := OTable t]> (mem w))).
Proof. intros Hw. unfold states_valid. cbn. now apply map_Forall_insert_2. Qed.

Lemma handled_state_valid s : s = EN_UPDATED \/ s = EN_UNCHANGED -> s ∈ node_states.
Proof.
  unfold node_states. rewrite !elem_of_cons. intros [-> | ->]; auto.
Qed.

Lemma static_world_bounded w : static_world w -> world_bounded w.
Proof.
  unfold static_world, world_bounded. intros Hw p o Hp.
  specialize (Hw p o Hp). destruct o as [n|t|a|i]; cbn in *; auto; [|contradiction].
  destruct Hw as (d & _ & ->). apply static_init_bounded.
Qed.

Lemma run_op_bounded op w w' :
  world_bounded w -> run_op op w = Ok tt w' -> world_bounded w'.
Proof.
  intros Hw H.
  destruct op as [node input h|node nm idx|DB_NAME node arg|rec_table node|node|node];
    cbn in H.
  - apply engine_add_input_inv in H as (n & Hn & Hne & _ & ->).
    apply insert_node_bounded; [assumption|].
    apply push_input_bounded; [apply (Hw _ _ Hn) | assumption].
  - apply engine_ovsdb_node_add_index_inv in H as (n & ed & Hn & Hed & Hne & ->).
    apply insert_table_bounded; [assumption|].
    apply push_index_bounded; [apply (Hw _ _ Hed) | assumption].
  - apply engine_init_leaf_inv in H as (a & n & p & _ & Hn & _ & ->).
    apply insert_node_bounded.
    + apply insert_table_bounded; [assumption | apply ed_type_ovsdb_table_zero_bounded].
    + apply (Hw _ _ Hn).
  - apply engine_recompute_leaf_inv in H as (n & s & Hn & _ & ->).
    apply insert_node_bounded; [assumption | apply (Hw _ _ Hn)].
  - apply engine_set_node_state_inv in H as (n & Hn & ->).
    apply insert_node_bounded; [assumption | apply (Hw _ _ Hn)].
  - apply engine_set_node_state_inv in H as (n & Hn & ->).
    apply insert_node_bounded; [assumption | apply (Hw _ _ Hn)].
Qed.

Lemma reachable_bounded w : reachable w -> world_bounded w.
Proof.
  induction 1 as [w Hs | w op w' _ IH H];
    [now apply static_world_bounded | now apply (run_op_bounded op w)].
Qed.

Lemma static_world_states w : static_world w -> states_valid w.
Proof.
  unfold static_world, states_valid. intros Hw p o Hp.
  specialize (Hw p o Hp). destruct o as [n|t|a|i]; cbn in *; auto.
  destruct Hw as (d & Hd & ->).
  destruct (macro_defined_state_data d Hd) as [-> _].
  unfold node_states. rewrite !elem_of_cons. auto.
Qed.

Lemma run_op_states op w w' :
  states_valid w -> run_op op w = Ok tt w' -> states_valid w'.
Proof.
  intros Hw H.
  destruct op as [node input h|node nm idx|DB_NAME node arg|rec_table node|node|node];
    cbn in H.
  - apply engine_add_input_inv in H as (n & Hn & _ & _ & ->).
    apply insert_node_states; [assumption | apply (Hw _ _ Hn)].
  - apply engine_ovsdb_node_add_index_inv in H as (n & ed & _ & _ & _ & ->).
    now apply insert_table_states.
  - apply engine_init_leaf_inv in H as (a & n & p & _ & Hn & _ & ->).
    apply insert_node_states; [now apply insert_table_states | apply (Hw _ _ Hn)].
  - apply engine_recompute_leaf_inv in H as (n & s & Hn & Hs & ->).
    apply insert_node_states; [assumption | now apply handled_state_valid].
  - apply engine_set_node_state_inv in H as (n & Hn & ->).
    apply insert_node_states; [assumption|].
    unfold node_states. cbn. rewrite !elem_of_cons. auto.
  - apply engine_set_node_state_inv in H as (n & Hn & ->).
    apply insert_node_states; [assumption|].
    unfold node_states. cbn. rewrite !elem_of_cons. auto 6.
Qed.

Lemma reachable_states w : reachable w -> states_valid w.
Proof.
  induction 1 as [w Hs | w op w' Hr IH H];
    [now apply static_world_states | now apply (run_op_states op w)].
Qed.

Lemma run_ops_reachable ops : forall w w',
  reachable w -> run_ops ops w = Ok tt w' -> reachable w'.
Proof.
  induction ops as [|op ops IH]; intros w w' Hw H.
  - now injection H as <-.
  - cbn in H. apply bind_inv in H as ([] & w1 & H1 & H).
    apply (IH w1); [|assumption]. now apply (reach_op w op).
Qed.

Lemma example_session_reachable : reachable Example.w_end.
Proof.
  apply (run_ops_reachable Example.session Example.w_start).
  - apply reach_static. unfold static_world, Example.w_start. cbn [mem].
    repeat apply map_Forall_insert_2; try apply map_Forall_empty; cbn; auto.
    + exists (ENGINE_NODE_SB "chassis"). split; [constructor | reflexivity].
    + exists (ENGINE_NODE1 "flow"). split; [|reflexivity].
      now apply (def_ENGINE_NODE "flow" []).
  - vm_compute. reflexivity.
Qed.

Lemma example_static_world idl dbg : static_world (Example.w_static idl dbg).
Proof.
  unfold static_world, Example.w_static. cbn [mem].
  repeat apply map_Forall_insert_2; try apply map_Forall_empty; cbn; auto.
  exists (ENGINE_NODE_SB "chassis"). split; [constructor | reflexivity].
Qed.

(** C5: [ENGINE_MAX_INPUT] and [ENGINE_MAX_OVSDB_INDEX] are 256; in every
    world reached from the static node definitions, every node's input
    array has exactly [ENGINE_MAX_INPUT] entries of which at most that many
    are in use, and every leaf payload's index array has exactly
    [ENGINE_MAX_OVSDB_INDEX] entries of which at most that many are in use;
    [engine_add_input] fails its precondition on a node whose [n_inputs]
    equals the bound. *)
Theorem input_and_index_bounds :
  ENGINE_MAX_INPUT = 256 /\
  ENGINE_MAX_OVSDB_INDEX = 256 /\
  (forall w, reachable w ->
     forall p n, mem w !! p = Some (ONode n) ->
       length (inputs n) = ENGINE_MAX_INPUT /\ n_inputs n <= ENGINE_MAX_INPUT) /\
  (forall w, reachable w ->
     forall p t, mem w !! p = Some (OTable t) ->
       length (indexes t) = ENGINE_MAX_OVSDB_INDEX /\
       n_indexes t <= ENGINE_MAX_OVSDB_INDEX) /\
  (forall w node input h n src,
     mem w !! node = Some (ONode n) ->
     mem w !! input = Some (ONode src) ->
     n_inputs n = ENGINE_MAX_INPUT ->
     engine_add_input node input h w = Fault AssertFailed).
Proof.
  split; [reflexivity|]. split; [reflexivity|]. split; [|split].
  - intros w Hw p n Hp. apply (reachable_bounded w Hw p _ Hp).
  - intros w Hw p t Hp. apply (reachable_bounded w Hw p _ Hp).
  - intros w node input h n src Hn Hsrc Hfull. unfold engine_add_input.
    rewrite (bind_ok _ _ _ _ _ (load_node_ok _ _ _ Hn)).
    rewrite (bind_ok _ _ _ _ _ (load_node_ok _ _ _ Hsrc)).
    now destruct (decide (n_inputs n = ENGINE_MAX_INPUT)).
Qed.

Lemma input_and_index_bounds_witness :
  (n_inputs Example.en_flow_after = 1 /\
   length (inputs Example.en_flow_after) = ENGINE_MAX_INPUT /\
   n_inputs Example.en_flow_after <= ENGINE_MAX_INPUT) /\
  (n_indexes Example.payload_after = 1 /\
   length (indexes Example.payload_after) = ENGINE_MAX_OVSDB_INDEX /\
   n_indexes Example.payload_after <= ENGINE_MAX_OVSDB_INDEX) /\
  engine_add_input 7%N 1%N None Example.w_full = Fault AssertFailed.
Proof.
  destruct input_and_index_bounds as (_ & _ & Hn & Ht & Hfull).
  split; [|split].
  - split; [reflexivity|].
    apply (Hn Example.w_end example_session_reachable 3%N). vm_compute. reflexivity.
  - split; [reflexivity|].
    apply (Ht Example.w_end example_session_reachable 5%N). vm_compute. reflexivity.
  - apply (Hfull Example.w_full 7%N 1%N None Example.en_full Example.en_sb_chassis);
      vm_compute; reflexivity.
Defined.

(** C6: every node a definition macro defines has state [EN_STALE] and a
    null data pointer before [engine_init]; the state of every node in
    every reachable world is one of STALE, UPDATED, UNCHANGED, CANCELED,
    which are the enumerators below the count [EN_STATE_MAX]. *)
Theorem node_initial_state :
  (forall d, macro_defined d ->
     state (node_of d) = EN_STALE /\ data (node_of d) = NULL) /\
  (forall w, reachable w ->
     forall p n, mem w !! p = Some (ONode n) ->
       state n = EN_STALE \/ state n = EN_UPDATED \/
       state n = EN_UNCHANGED \/ state n = EN_CANCELED) /\
  (forall s, s ∈ node_states <->
             (engine_node_state_val s < engine_node_state_val EN_STATE_MAX)%Z) /\
  engine_node_state_val EN_STATE_MAX = Z.of_nat (length node_states).
Proof.
  split; [exact macro_defined_state_data|]. split; [|split; [|reflexivity]].
  - intros w Hw p n Hp. pose proof (reachable_states w Hw p _ Hp) as Hs. cbn in Hs.
    unfold node_states in Hs. rewrite !elem_of_cons, elem_of_nil in Hs. tauto.
  - intros s. unfold node_states. rewrite !elem_of_cons, elem_of_nil.
    destruct s; split; intros H; try (vm_compute; reflexivity); auto 6.
    + destruct H as [H|[H|[H|[H|[]]]]]; discriminate.
    + vm_compute in H. discriminate.
Qed.

Lemma node_initial_state_witness :
  (state Example.en_sb_chassis = EN_STALE /\ data Example.en_sb_chassis = NULL) /\
  (state Example.en_sb_chassis_after = EN_UPDATED /\
   (state Example.en_sb_chassis_after = EN_STALE \/
    state Example.en_sb_chassis_after = EN_UPDATED \/
    state Example.en_sb_chassis_after = EN_UNCHANGED \/
    state Example.en_sb_chassis_after = EN_CANCELED)) /\
  (state Example.en_flow_after = EN_CANCELED /\
   (state Example.en_flow_after = EN_STALE \/
    state Example.en_flow_after = EN_UPDATED \/
    state Example.en_flow_after = EN_UNCHANGED \/
    state Example.en_flow_after = EN_CANCELED)).
Proof.
  destruct node_initial_state as (Hinit & Hreach & _).
  split; [|split].
  - apply (Hinit (ENGINE_NODE_SB "chassis")). constructor.
  - split; [reflexivity|].
    apply (Hreach Example.w_end example_session_reachable 1%N). vm_compute. reflexivity.
  - split; [reflexivity|].
    apply (Hreach Example.w_end example_session_reachable 3%N). vm_compute. reflexivity.
Defined.

(** ** The leaf callbacks *)

(** C1: the [run] callback of a macro-generated OVSDB leaf returns
    [EN_UPDATED] when the table's probe [track_get_first] returns a row and
    [EN_UNCHANGED] when it returns none; whenever it returns, the state is
    one of these two (never [EN_STALE] or [EN_CANCELED]) and the world, the
    node's payload included, is as before. *)
Theorem leaf_run_reports_tracked_change rec_table node d w :
  (forall n t first,
     mem w !! node = Some (ONode n) ->
     mem w !! data n = Some (OTable t) ->
     rec_table_track_get_first rec_table (table t) w = Ok first w ->
     en_DB_NAME_TBL_NAME_run rec_table node d w
     = Ok (if first is Some _ then EN_UPDATED else EN_UNCHANGED) w) /\
  (forall s w',
     en_DB_NAME_TBL_NAME_run rec_table node d w = Ok s w' ->
     (s = EN_UPDATED \/ s = EN_UNCHANGED) /\
     s <> EN_STALE /\ s <> EN_CANCELED /\ w' = w).
Proof.
  split.
  - intros n t first. apply leaf_run_ok.
  - intros s w' H. apply leaf_run_inv in H as [Hs ->].
    repeat split; [assumption | | ]; destruct Hs as [-> | ->]; discriminate.
Qed.

Lemma leaf_run_reports_tracked_change_witness :
  en_DB_NAME_TBL_NAME_run Example.chassis_table 1%N 5%N
    (Example.w_ready Example.idl_changed false)
  = Ok EN_UPDATED (Example.w_ready Example.idl_changed false) /\
  en_DB_NAME_TBL_NAME_run Example.chassis_table 1%N 5%N
    (Example.w_ready Example.idl_quiet false)
  = Ok EN_UNCHANGED (Example.w_ready Example.idl_quiet false) /\
  EN_UPDATED <> EN_STALE.
Proof.
  split; [|split].
  - apply (proj1 (leaf_run_reports_tracked_change Example.chassis_table 1%N 5%N
                    (Example.w_ready Example.idl_changed false))
             Example.en_sb_chassis_ready Example.payload (Some Example.row_inserted));
      vm_compute; reflexivity.
  - apply (proj1 (leaf_run_reports_tracked_change Example.chassis_table 1%N 5%N
                    (Example.w_ready Example.idl_quiet false))
             Example.en_sb_chassis_ready Example.payload None);
      vm_compute; reflexivity.
  - apply (proj2 (leaf_run_reports_tracked_change Example.chassis_table 1%N 5%N
                    (Example.w_ready Example.idl_changed false))
             EN_UPDATED (Example.w_ready Example.idl_changed false)).
    vm_compute. reflexivity.
Defined.

(** C7: the [init] callback of a macro-generated OVSDB leaf returns a
    non-null pointer to a block that was not allocated before, and leaves
    there a payload that is zero (no index registered, every index slot
    empty) except for its table, which is the handle of the table in the
    IDL of [DB_NAME] carried by the init argument; nothing else changes. *)
Theorem leaf_init_payload DB_NAME node arg a w :
  mem w !! arg = Some (OArg a) ->
  exists p w',
    en_DB_NAME_TBL_NAME_init DB_NAME node arg w = Ok p w' /\
    p <> NULL /\
    mem w !! p = None /\
    mem w' !! p
    = Some (OTable {| table := rec_table_get (DB_NAME_idl DB_NAME a);
                      n_indexes := 0;
                      indexes := replicate ENGINE_MAX_OVSDB_INDEX
                                   {| idx_name := None; index := NULL |} |}) /\
    (forall q, q <> p -> mem w' !! q = mem w !! q) /\
    vlog w' = vlog w /\
    vlog_dbg_enabled w' = vlog_dbg_enabled w.
Proof.
  intros Ha. eexists _, _. split; [apply (leaf_init_ok DB_NAME node arg a w Ha)|].
  destruct (fresh_block w) as [Hnull Hfresh].
  split; [assumption|]. split; [assumption|]. cbn [mem set_mem].
  split; [apply lookup_insert_eq|].
  split; [|split; reflexivity].
  intros q Hq. now apply lookup_insert_ne.
Qed.

Lemma leaf_init_payload_witness :
  exists p w',
    en_DB_NAME_TBL_NAME_init sb 1%N 2%N (Example.w_static Example.idl_quiet false)
    = Ok p w' /\
    p <> NULL /\
    mem (Example.w_static Example.idl_quiet false) !! p = None /\
    mem w' !! p
    = Some (OTable {| table := rec_table_get 4%N;
                      n_indexes := 0;
                      indexes := replicate ENGINE_MAX_OVSDB_INDEX
                                   {| idx_name := None; index := NULL |} |}) /\
    (forall q, q <> p ->
       mem w' !! q = mem (Example.w_static Example.idl_quiet false) !! q) /\
    vlog w' = vlog (Example.w_static Example.idl_quiet false) /\
    vlog_dbg_enabled w' = vlog_dbg_enabled (Example.w_static Example.idl_quiet false).
Proof.
  apply (leaf_init_payload sb 1%N 2%N Example.arg0
           (Example.w_static Example.idl_quiet false)).
  vm_compute. reflexivity.
Defined.

(** C9: the [cleanup] callback of a macro-generated OVSDB leaf does
    nothing: for every data argument and every world it returns with the
    world as it was, so the payload its [init] allocated is still in place,
    unchanged, after the cleanup. *)
Theorem leaf_cleanup_is_noop :
  (forall d w, en_DB_NAME_TBL_NAME_cleanup d w = Ok tt w) /\
  (forall DB_NAME node arg w p w',
     en_DB_NAME_TBL_NAME_init DB_NAME node arg w = Ok p w' ->
     exists t, mem w' !! p = Some (OTable t) /\
               (en_DB_NAME_TBL_NAME_cleanup p ;;; load_table p) w' = Ok t w').
Proof.
  split; [reflexivity|].
  intros DB_NAME node arg w p w' H.
  apply leaf_init_inv in H as (a & _ & _ & ->).
  eexists. split; [cbn; apply lookup_insert_eq|].
  unfold bind, en_DB_NAME_TBL_NAME_cleanup, ret.
  apply load_table_ok. cbn. apply lookup_insert_eq.
Qed.

Lemma leaf_cleanup_is_noop_witness :
  exists t,
    mem (set_mem (Example.w_static Example.idl_quiet false)
           (<[5%N := OTable Example.payload]>
              (mem (Example.w_static Example.idl_quiet false)))) !! 5%N
    = Some (OTable t) /\
    (en_DB_NAME_TBL_NAME_cleanup 5%N ;;; load_table 5%N)
      (set_mem (Example.w_static Example.idl_quiet false)
         (<[5%N := OTable Example.payload]>
            (mem (Example.w_static Example.idl_quiet false))))
    = Ok t (set_mem (Example.w_static Example.idl_quiet false)
              (<[5%N := OTable Example.payload]>
                 (mem (Example.w_static Example.idl_quiet false)))).
Proof.
  apply (proj2 leaf_cleanup_is_noop sb 1%N 2%N
           (Example.w_static Example.idl_quiet false) 5%N).
  vm_compute. reflexivity.
Defined.

(** ** Data access *)

(** C2: [engine_get_data] returns the node's data when the node's state is
    [EN_UPDATED] or [EN_UNCHANGED], or when the node defines [is_valid] and
    it returns true; in every other case it returns [NULL].  For a node
    that has data, it returns the data exactly in those cases. *)
Theorem engine_get_data_when_valid is_valid_fn node n w :
  mem w !! node = Some (ONode n) ->
  let valid := state n = EN_UPDATED \/ state n = EN_UNCHANGED \/
               exists f, is_valid n = Some f /\ is_valid_fn f node w = true in
  (valid -> engine_get_data is_valid_fn node w = Ok (data n) w) /\
  (~ valid -> engine_get_data is_valid_fn node w = Ok NULL w) /\
  (data n <> NULL ->
   (engine_get_data is_valid_fn node w = Ok (data n) w <-> valid)).
Proof.
  intros Hn valid.
  assert (engine_get_data is_valid_fn node w
          = Ok (if fresh_state (state n) then data n
                else match is_valid n with
                     | Some f => if is_valid_fn f node w then data n else NULL
                     | None => NULL
                     end) w) as Hget.
  { unfold engine_get_data, engine_node_valid.
    unfold bind at 1. unfold bind at 1.
    rewrite (load_node_ok _ _ _ Hn).
    destruct (fresh_state (state n)).
    - cbn. now rewrite (bind_ok _ _ _ _ _ (load_node_ok _ _ _ Hn)).
    - destruct (is_valid n) as [f|]; [|reflexivity].
      destruct (is_valid_fn f node w); [|reflexivity].
      now rewrite (bind_ok _ _ _ _ _ (load_node_ok _ _ _ Hn)). }
  assert (valid <-> (if fresh_state (state n) then True
                     else match is_valid n with
                          | Some f => is_valid_fn f node w = true
                          | None => False
                          end)) as Hvalid.
  { unfold valid, fresh_state.
    destruct (state n); cbn.
    1, 4, 5:
      (split; [intros [H|[H|(f & Hf & Hv)]]; try discriminate; now rewrite Hf
              |destruct (is_valid n) as [f|]; [eauto 6 | contradiction]]).
    all: split; auto. }
  rewrite Hget. repeat split.
  - intros Hv. apply Hvalid in Hv. destruct (fresh_state (state n)); [reflexivity|].
    destruct (is_valid n); [now rewrite Hv | contradiction].
  - intros Hv. rewrite Hvalid in Hv. destruct (fresh_state (state n)); [tauto|].
    destruct (is_valid n) as [f|]; [|reflexivity].
    destruct (is_valid_fn f node w); [tauto | reflexivity].
  - intros Heq. apply Hvalid. destruct (fresh_state (state n)); [exact I|].
    destruct (is_valid n) as [f|]; [|congruence].
    destruct (is_valid_fn f node w); [reflexivity | congruence].
  - intros Hv. apply Hvalid in Hv. destruct (fresh_state (state n)); [reflexivity|].
    destruct (is_valid n); [now rewrite Hv | contradiction].
Qed.

Lemma engine_get_data_when_valid_witness :
  engine_get_data (fun _ _ _ => false) 1%N
    (set_mem (Example.w_ready Example.idl_quiet false)
       (<[1%N := ONode (set_state Example.en_sb_chassis_ready EN_UNCHANGED)]>
          (mem (Example.w_ready Example.idl_quiet false))))
  = Ok 5%N
      (set_mem (Example.w_ready Example.idl_quiet false)
         (<[1%N := ONode (set_state Example.en_sb_chassis_ready EN_UNCHANGED)]>
            (mem (Example.w_ready Example.idl_quiet false)))) /\
  engine_get_data (fun _ _ _ => false) 1%N (Example.w_ready Example.idl_quiet false)
  = Ok NULL (Example.w_ready Example.idl_quiet false).
Proof.
  split.
  - refine (proj1 (engine_get_data_when_valid (fun _ _ _ => false) 1%N
             (set_state Example.en_sb_chassis_ready EN_UNCHANGED)
             (set_mem (Example.w_ready Example.idl_quiet false)
                (<[1%N := ONode (set_state Example.en_sb_chassis_ready EN_UNCHANGED)]>
                   (mem (Example.w_ready Example.idl_quiet false)))) _) _).
    + vm_compute. reflexivity.
    + right. left. reflexivity.
  - refine (proj1 (proj2 (engine_get_data_when_valid (fun _ _ _ => false) 1%N
             Example.en_sb_chassis_ready (Example.w_ready Example.idl_quiet false) _)) _).
    + vm_compute. reflexivity.
    + intros [H|[H|(f & H & _)]]; discriminate.
Defined.

(** ** The no-op handler *)

Lemma engine_compute_input_noop handler_fn owner edge fl w r w' :
  change_handler edge = Some "engine_noop_handler" ->
  engine_compute_input handler_fn owner edge fl w = Ok r w' ->
  r.1 = fl.
Proof.
  intros Hh H. unfold engine_compute_input in H.
  apply bind_inv in H as (src & w1 & H1 & H).
  apply load_node_inv in H1 as [_ ->]. rewrite Hh in H.
  destruct (state src).
  - now injection H as <- _.
  - apply bind_inv in H as (n & w1 & H1 & H).
    apply load_node_inv in H1 as [_ ->].
    unfold call_change_handler in H.
    destruct (decide ("engine_noop_handler" = "engine_noop_handler")); [|congruence].
    cbn in H. now injection H as <- _.
  - now injection H as <- _.
  - apply bind_inv in H as (n & w1 & _ & H).
    apply bind_inv in H as (u & w2 & _ & H).
    now injection H as <- _.
  - now injection H as <- _.
Qed.

Lemma engine_compute_inputs_noop handler_fn owner edges fl w fl' w' :
  Forall (fun e => change_handler e = Some "engine_noop_handler") edges ->
  engine_compute_inputs handler_fn owner edges fl w = Ok fl' w' ->
  fl' = fl.
Proof.
  intros Hall. revert w. induction Hall as [|edge edges Hh _ IH]; intros w H.
  - now injection H as <- _.
  - cbn in H. apply bind_inv in H as (r & w1 & H1 & H).
    apply (engine_compute_input_noop _ _ _ _ _ _ _ Hh) in H1.
    destruct r as [fl1 brk]. cbn in *. subst fl1.
    destruct brk; [now injection H as <- _ | eauto].
Qed.

(** C8: [engine_noop_handler] returns [EN_HANDLED_UNCHANGED] for every node
    and data argument and leaves the world as it is; so an input wired with
    it, whatever the state of its source, raises neither the owning node's
    need for a recompute nor its handled-update flag, and the pass over
    inputs that are all wired with it ends with the flags it started
    with. *)
Theorem engine_noop_handler_leaves_unchanged :
  (forall node d w, engine_noop_handler node d w = Ok EN_HANDLED_UNCHANGED w) /\
  (forall handler_fn owner edge fl w r w',
     change_handler edge = Some "engine_noop_handler" ->
     engine_compute_input handler_fn owner edge fl w = Ok r w' ->
     needs_recompute r.1 = needs_recompute fl /\
     any_handled_update r.1 = any_handled_update fl) /\
  (forall handler_fn owner edges fl w fl' w',
     Forall (fun e => change_handler e = Some "engine_noop_handler") edges ->
     engine_compute_inputs handler_fn owner edges fl w = Ok fl' w' ->
     needs_recompute fl' = needs_recompute fl /\
     any_handled_update fl' = any_handled_update fl) /\
  (forall handler_fn owner edge fl w n src,
     change_handler edge = Some "engine_noop_handler" ->
     mem w !! owner = Some (ONode n) ->
     mem w !! node edge = Some (ONode src) ->
     state src = EN_UPDATED ->
     engine_compute_input handler_fn owner edge fl w = Ok (fl, false) w).
Proof.
  split; [reflexivity|]. split; [|split].
  - intros handler_fn owner edge fl w r w' Hh H.
    now rewrite (engine_compute_input_noop _ _ _ _ _ _ _ Hh H).
  - intros handler_fn owner edges fl w fl' w' Hall H.
    now rewrite (engine_compute_inputs_noop _ _ _ _ _ _ _ Hall H).
  - intros handler_fn owner edge fl w n src Hh Hn Hsrc Hst.
    unfold engine_compute_input.
    rewrite (bind_ok _ _ _ _ _ (load_node_ok _ _ _ Hsrc)). rewrite Hst, Hh.
    rewrite (bind_ok _ _ _ _ _ (load_node_ok _ _ _ Hn)).
    unfold call_change_handler.
    destruct (decide ("engine_noop_handler" = "engine_noop_handler")); [|congruence].
    reflexivity.
Qed.

Lemma engine_noop_handler_leaves_unchanged_witness :
  engine_compute_input (fun _ _ _ => ret EN_UNHANDLED) 7%N
    {| node := 1%N; change_handler := Some "engine_noop_handler" |}
    {| needs_recompute := false; any_handled_update := false;
       all_handled_unchanged := true |}
    Example.w_wired
  = Ok ({| needs_recompute := false; any_handled_update := false;
           all_handled_unchanged := true |}, false) Example.w_wired /\
  needs_recompute {| needs_recompute := false; any_handled_update := false;
                     all_handled_unchanged := true |} = false /\
  any_handled_update {| needs_recompute := false; any_handled_update := false;
                        all_handled_unchanged := true |} = false.
Proof.
  destruct engine_noop_handler_leaves_unchanged as (_ & Hedge & Hall & Hrun).
  pose (fl := {| needs_recompute := false; any_handled_update := false;
                 all_handled_unchanged := true |}).
  pose (edge := {| node := 1%N; change_handler := Some "engine_noop_handler" |}).
  pose (user := fun (_ : string) (_ _ : addr) => ret (A:=engine_input_handler_result)
                                                    EN_UNHANDLED).
  assert (engine_compute_input user 7%N edge fl Example.w_wired
          = Ok (fl, false) Example.w_wired) as Hstep.
  { apply (Hrun user 7%N edge fl Example.w_wired Example.en_flow_wired
             Example.en_sb_chassis_updated); vm_compute; reflexivity. }
  split; [exact Hstep|].
  assert (engine_compute_inputs user 7%N [edge] fl Example.w_wired
          = Ok fl Example.w_wired) as Hloop.
  { cbn [engine_compute_inputs]. now rewrite (bind_ok _ _ _ _ _ Hstep). }
  pose proof (Hedge user 7%N edge fl Example.w_wired (fl, false) Example.w_wired
                eq_refl Hstep) as [_ _].
  apply (Hall user 7%N [edge] fl Example.w_wired fl Example.w_wired);
    [repeat constructor | exact Hloop].
Defined.

(** ** The compute-failure diagnostic *)

Lemma append_cons x (a b : string) : String x a +:+ b = String x (a +:+ b).
Proof. reflexivity. Qed.

Lemma append_assoc (a b c : string) : (a +:+ b) +:+ c = a +:+ (b +:+ c).
Proof.
  induction a as [|x a IH]; [reflexivity|]. rewrite !append_cons. now f_equal.
Qed.

Lemma append_empty_r (a : string) : a +:+ EmptyString = a.
Proof.
  induction a as [|x a IH]; [reflexivity|]. rewrite append_cons. now f_equal.
Qed.

Lemma append_nonempty_r (a b : string) : b <> EmptyString -> a +:+ b <> EmptyString.
Proof. destruct a; [exact (fun H => H) | rewrite append_cons; discriminate]. Qed.

Lemma ds_chomp_cons a s c :
  s <> EmptyString -> ds_chomp (String a s) c = String a (ds_chomp s c).
Proof. destruct s; [contradiction | reflexivity]. Qed.

Lemma ds_chomp_app a b c :
  b <> EmptyString -> ds_chomp (a +:+ b) c = a +:+ ds_chomp b c.
Proof.
  intros Hb. induction a as [|x a IH]; [reflexivity|]. rewrite !append_cons.
  rewrite ds_chomp_cons by now apply append_nonempty_r. now rewrite IH.
Qed.

Lemma ds_chomp_last c : ds_chomp (String c EmptyString) c = EmptyString.
Proof. cbn. now rewrite Ascii.eqb_refl. Qed.

Lemma ds_chomp_other a c :
  a <> c -> ds_chomp (String a EmptyString) c = String a EmptyString.
Proof. intros H. cbn. apply Ascii.eqb_neq in H. now rewrite H. Qed.

Lemma column_chunk_nonempty c rest :
  (" " +:+ c +:+ ",") +:+ rest <> EmptyString.
Proof. change (String " "%char ((c +:+ ",") +:+ rest) <> EmptyString). discriminate. Qed.

(** The text the column loop appends for the changed columns. *)
Lemma column_chunks_chomp (names : list string) :
  names <> [] ->
  ds_chomp (concat_strings ((fun c => " " +:+ c +:+ ",") <$> names)) ","%char
  = column_list names.
Proof.
  induction names as [|c names IH]; [contradiction|]. intros _.
  destruct names as [|c' names].
  - cbn [fmap list_fmap concat_strings column_list].
    rewrite append_empty_r, <- append_assoc.
    rewrite ds_chomp_app by discriminate. rewrite ds_chomp_last.
    apply append_empty_r.
  - change (concat_strings ((fun c => " " +:+ c +:+ ",") <$> c :: c' :: names))
      with ((" " +:+ c +:+ ",")
            +:+ concat_strings ((fun c => " " +:+ c +:+ ",") <$> c' :: names)).
    rewrite ds_chomp_app by apply column_chunk_nonempty.
    rewrite IH by discriminate.
    change (column_list (c :: c' :: names))
      with (" " +:+ c +:+ "," +:+ column_list (c' :: names)).
    now rewrite !append_assoc.
Qed.

(** The changed columns among those at positions [i], ..., [i + todo - 1]. *)
Lemma for_index_columns rec_columns row todo : forall i s w,
  i + todo <= length rec_columns ->
  for_index (failure_info_column rec_columns row) i todo s w
  = Ok (s +:+ concat_strings
                ((fun c => " " +:+ c +:+ ",")
                   <$> omap (fun i => if ovsdb_idl_track_is_updated row i
                                      then col_name <$> rec_columns !! i
                                      else None)
                            (seq i todo))) w.
Proof.
  induction todo as [|todo IH]; intros i s w Hlen.
  - cbn. now rewrite append_empty_r.
  - cbn [for_index seq omap list_omap].
    destruct (lookup_lt_is_Some_2 rec_columns i) as [col Hcol]; [lia|].
    unfold failure_info_column at 1. unfold bind at 1. rewrite Hcol.
    destruct (ovsdb_idl_track_is_updated row i); cbn [ret fmap option_fmap option_map].
    + rewrite IH by lia. unfold ds_put_cstr. cbn [fmap list_fmap concat_strings].
      now rewrite !append_assoc.
    + now rewrite IH by lia.
Qed.

Lemma failure_info_row_reports DB_NAME TBL_NAME rec_columns UUID_FMT row s w :
  (insert_seqno row = 0%N -> delete_seqno row = 0%N ->
   n_columns (row_class row) <= length rec_columns) ->
  failure_info_row DB_NAME TBL_NAME rec_columns UUID_FMT row s w
  = Ok (s +:+ report_row (table_label DB_NAME TBL_NAME) (UUID_FMT (uuid row))
                (classify_row rec_columns row)) w.
Proof.
  intros Hcols. unfold failure_info_row, classify_row, ovsdb_idl_row_get_seqno.
  destruct (decide (0 < insert_seqno row)%N) as [Hi|Hi].
  { apply N.ltb_lt in Hi. rewrite Hi. reflexivity. }
  apply N.ltb_nlt in Hi as Hi'. rewrite Hi'.
  destruct (decide (0 < delete_seqno row)%N) as [Hd|Hd].
  { apply N.ltb_lt in Hd. rewrite Hd. reflexivity. }
  apply N.ltb_nlt in Hd as Hd'. rewrite Hd'.
  erewrite bind_ok; [|apply for_index_columns; cbn; apply Hcols; lia].
  unfold ret, ds_put_cstr, report_row. f_equal.
  fold (changed_columns rec_columns row).
  destruct (changed_columns rec_columns row) as [|c names] eqn:E.
  - cbn [fmap list_fmap concat_strings column_list]. rewrite !append_empty_r.
    rewrite <- !append_assoc.
    replace " columns:" with (" columns" +:+ ":") by reflexivity.
    rewrite <- append_assoc.
    rewrite ds_chomp_app by discriminate.
    now rewrite ds_chomp_other by discriminate.
  - rewrite ds_chomp_app by apply column_chunk_nonempty.
    rewrite column_chunks_chomp by discriminate. now rewrite !append_assoc.
Qed.

Lemma VLOG_DBG_ok msg w :
  vlog_dbg_enabled w = true -> VLOG_DBG msg w = Ok tt (logged w msg).
Proof.
  unfold VLOG_DBG, logged. now destruct (vlog_dbg_enabled w).
Qed.

(** Induction along a track list: a property of the rows after [row]
    gives the property of [row]. *)
Lemma track_list_ind (P : ovsdb_idl_row -> Prop) :
  (forall row, (forall row', ovsdb_idl_track_get_next row = Some row' -> P row') -> P row) ->
  forall row, P row.
Proof.
  intros H. fix IH 1. intros [u c i m d up [next|]]; apply H; cbn; intros row' E.
  - injection E as <-. apply IH.
  - discriminate.
Qed.

Lemma for_tracked_reports DB_NAME TBL_NAME rec_columns UUID_FMT row : forall s w,
  Forall (fun r => n_columns (row_class r) <= length rec_columns) (track_rows_from row) ->
  for_tracked (failure_info_row DB_NAME TBL_NAME rec_columns UUID_FMT) row s w
  = Ok (s +:+ concat_strings
                ((fun r => report_row (table_label DB_NAME TBL_NAME) (UUID_FMT (uuid r))
                                      (classify_row rec_columns r))
                   <$> track_rows_from row)) w.
Proof.
  induction row as [row IH] using track_list_ind. intros s w Hcols.
  destruct row as [u c i m d up next]. cbn [for_tracked track_rows_from] in *.
  apply Forall_cons in Hcols as [Hrow Hrest].
  rewrite (bind_ok _ _ _ _ _
             (failure_info_row_reports DB_NAME TBL_NAME rec_columns UUID_FMT _ s w
                (fun _ _ => Hrow))).
  cbn [ovsdb_idl_track_get_next track_next] in *.
  destruct next as [row'|]; cbn [fmap list_fmap concat_strings].
  - rewrite (IH row' eq_refl) by assumption. now rewrite append_assoc.
  - unfold ret. now rewrite append_empty_r.
Qed.

(** C10: in the compute-failure diagnostic a row with a positive insert
    sequence number is reported as New whatever its delete sequence
    number; a row with no insert but a positive delete sequence number is
    reported as Deleted; only a row with neither is reported as Updated,
    with the names of its changed columns. *)
Theorem failure_info_row_priority DB_NAME TBL_NAME rec_columns UUID_FMT row s w :
  ((0 < insert_seqno row)%N ->
   failure_info_row DB_NAME TBL_NAME rec_columns UUID_FMT row s w
   = Ok (s +:+ table_label DB_NAME TBL_NAME +:+ " (New) "
           +:+ UUID_FMT (uuid row) +:+ LF) w) /\
  (insert_seqno row = 0%N -> (0 < delete_seqno row)%N ->
   failure_info_row DB_NAME TBL_NAME rec_columns UUID_FMT row s w
   = Ok (s +:+ table_label DB_NAME TBL_NAME +:+ " (Deleted) "
           +:+ UUID_FMT (uuid row) +:+ LF) w) /\
  (insert_seqno row = 0%N -> delete_seqno row = 0%N ->
   n_columns (row_class row) <= length rec_columns ->
   failure_info_row DB_NAME TBL_NAME rec_columns UUID_FMT row s w
   = Ok (s +:+ table_label DB_NAME TBL_NAME +:+ " (Updated) "
           +:+ UUID_FMT (uuid row) +:+ " columns:"
           +:+ column_list (changed_columns rec_columns row)) w).
Proof.
  split; [|split].
  - intros Hi. rewrite failure_info_row_reports by lia.
    unfold classify_row. now destruct (decide (0 < insert_seqno row)%N).
  - intros Hi Hd. rewrite failure_info_row_reports by lia.
    unfold classify_row.
    destruct (decide (0 < insert_seqno row)%N); [lia|].
    now destruct (decide (0 < delete_seqno row)%N).
  - intros Hi Hd Hcols. rewrite failure_info_row_reports by auto.
    unfold classify_row.
    destruct (decide (0 < insert_seqno row)%N); [lia|].
    destruct (decide (0 < delete_seqno row)%N); [lia|]. reflexivity.
Qed.

Lemma failure_info_row_priority_witness :
  failure_info_row sb "chassis" Example.chassis_columns Example.uuid_text
    Example.row_inserted EmptyString (Example.w_ready Example.idl_changed true)
  = Ok ("sb_chassis (New) u1" +:+ LF) (Example.w_ready Example.idl_changed true) /\
  failure_info_row sb "chassis" Example.chassis_columns Example.uuid_text
    Example.row_deleted EmptyString (Example.w_ready Example.idl_changed true)
  = Ok ("sb_chassis (Deleted) u2" +:+ LF) (Example.w_ready Example.idl_changed true) /\
  failure_info_row sb "chassis" Example.chassis_columns Example.uuid_text
    Example.row_updated EmptyString (Example.w_ready Example.idl_changed true)
  = Ok "sb_chassis (Updated) u3 columns: name, encaps"
       (Example.w_ready Example.idl_changed true).
Proof.
  split; [|split].
  - apply (proj1 (failure_info_row_priority sb "chassis" Example.chassis_columns
                    Example.uuid_text Example.row_inserted EmptyString
                    (Example.w_ready Example.idl_changed true))).
    vm_compute. reflexivity.
  - apply (proj1 (proj2 (failure_info_row_priority sb "chassis" Example.chassis_columns
                           Example.uuid_text Example.row_deleted EmptyString
                           (Example.w_ready Example.idl_changed true))));
      vm_compute; reflexivity.
  - apply (proj2 (proj2 (failure_info_row_priority sb "chassis" Example.chassis_columns
                           Example.uuid_text Example.row_updated EmptyString
                           (Example.w_ready Example.idl_changed true))));
      vm_compute; reflexivity.
Defined.

(** C4: the [get_compute_failure_info] callback of a macro-generated OVSDB
    leaf returns with the world as it was when debug logging is disabled;
    when it is enabled it logs one message: the header naming the node,
    then one entry for each row of the table's track list, in list order,
    each row once, that classifies the row as New, Deleted or Updated and,
    for Updated, lists the names of the changed columns. *)
Theorem leaf_compute_failure_info_reports
    DB_NAME TBL_NAME rec_table rec_columns UUID_FMT node w :
  (vlog_dbg_enabled w = false ->
   en_DB_NAME_TBL_NAME_compute_failure_info
     DB_NAME TBL_NAME rec_table rec_columns UUID_FMT node w = Ok tt w) /\
  (forall n node_name t idl,
     vlog_dbg_enabled w = true ->
     mem w !! node = Some (ONode n) ->
     name n = Some node_name ->
     mem w !! data n = Some (OTable t) ->
     mem w !! table t = Some (OIdl idl) ->
     let rows := track_rows (track_first idl !! tc_name rec_table) in
     Forall (fun r => n_columns (row_class r) <= length rec_columns) rows ->
     en_DB_NAME_TBL_NAME_compute_failure_info
       DB_NAME TBL_NAME rec_table rec_columns UUID_FMT node w
     = Ok tt (logged w (report_header node_name
                        +:+ concat_strings
                              ((fun r => report_row (table_label DB_NAME TBL_NAME)
                                                    (UUID_FMT (uuid r))
                                                    (classify_row rec_columns r))
                                 <$> rows)))).
Proof.
  split.
  - intros Hdbg. unfold en_DB_NAME_TBL_NAME_compute_failure_info.
    unfold bind at 1. unfold VLOG_IS_DBG_ENABLED. now rewrite Hdbg.
  - intros n node_name t idl Hdbg Hn Hname Ht Hidl rows Hcols.
    unfold en_DB_NAME_TBL_NAME_compute_failure_info.
    unfold bind at 1. unfold VLOG_IS_DBG_ENABLED. rewrite Hdbg. cbn [negb].
    rewrite (bind_ok _ _ _ _ _ (EN_OVSDB_GET_ok _ _ _ _ Hn Ht)).
    rewrite (bind_ok _ _ _ _ _ (load_node_ok _ _ _ Hn)).
    rewrite Hname. unfold cstr. unfold bind at 1. unfold ret at 1.
    rewrite (bind_ok _ _ _ _ _ (track_get_first_ok _ _ rec_table _ Hidl)).
    unfold rows in *. destruct (track_first idl !! tc_name rec_table) as [row|];
      cbn [track_rows] in *.
    + erewrite bind_ok; [|apply for_tracked_reports; assumption].
      now apply VLOG_DBG_ok.
    + unfold bind, ret. rewrite (VLOG_DBG_ok _ _ Hdbg).
      cbn [fmap list_fmap concat_strings]. now rewrite append_empty_r.
Qed.

Lemma leaf_compute_failure_info_reports_witness :
  en_DB_NAME_TBL_NAME_compute_failure_info sb "chassis" Example.chassis_table
    Example.chassis_columns Example.uuid_text 1%N
    (Example.w_ready Example.idl_changed false)
  = Ok tt (Example.w_ready Example.idl_changed false) /\
  en_DB_NAME_TBL_NAME_compute_failure_info sb "chassis" Example.chassis_table
    Example.chassis_columns Example.uuid_text 1%N
    (Example.w_ready Example.idl_changed true)
  = Ok tt (logged (Example.w_ready Example.idl_changed true)
             ("Node " +:+ DQUOTE +:+ "SB_chassis" +:+ DQUOTE
              +:+ " compute failure info:" +:+ LF
              +:+ "sb_chassis (New) u1" +:+ LF
              +:+ "sb_chassis (Deleted) u2" +:+ LF
              +:+ "sb_chassis (Updated) u3 columns: name, encaps")).
Proof.
  split.
  - apply (proj1 (leaf_compute_failure_info_reports sb "chassis" Example.chassis_table
                    Example.chassis_columns Example.uuid_text 1%N
                    (Example.w_ready Example.idl_changed false))).
    reflexivity.
  - refine (eq_trans
              (proj2 (leaf_compute_failure_info_reports sb "chassis"
                        Example.chassis_table Example.chassis_columns
                        Example.uuid_text 1%N
                        (Example.w_ready Example.idl_changed true))
                 Example.en_sb_chassis_ready "SB_chassis" Example.payload
                 Example.idl_changed _ _ _ _ _ _) _);
      try (vm_compute; reflexivity).
    vm_compute. repeat constructor.
Defined.


(** * Further properties of the header's code *)

(** ** Node definitions and the functions they name *)

Lemma pasted_symbol DB_NAME TBL_NAME sfx :
  "en_" +:+ db_token DB_NAME +:+ "_" +:+ TBL_NAME +:+ sfx
  = "en_" +:+ (db_token DB_NAME +:+ "_" +:+ TBL_NAME) +:+ sfx.
Proof. now rewrite !append_assoc. Qed.

Lemma pasted_symbol_inj pre s1 s2 : "en_" +:+ pre +:+ s1 = "en_" +:+ pre +:+ s2 -> s1 = s2.
Proof. intros H. now do 2 apply String.app_inj in H. Qed.

(** X1: the node [ENGINE_NODE_OVSDB(DB, .., TBL, ..)] defines names, in its
    four callback pointers, exactly the four functions
    [ENGINE_FUNC_OVSDB(DB, TBL)] defines; it has no [is_valid] and no
    [clear_tracked_data], and its symbol is [en_] followed by the label
    its diagnostic prints. *)
Theorem leaf_node_links_leaf_functions
    DB_NAME DB_NAME_STR TBL_NAME TBL_NAME_STR rec_table rec_columns UUID_FMT :
  let d := ENGINE_NODE_OVSDB DB_NAME DB_NAME_STR TBL_NAME TBL_NAME_STR in
  let defs := ENGINE_FUNC_OVSDB DB_NAME TBL_NAME rec_table rec_columns UUID_FMT in
  resolve defs (run (node_of d)) = Some (CB_run (en_DB_NAME_TBL_NAME_run rec_table)) /\
  resolve defs (init (node_of d)) = Some (CB_init (en_DB_NAME_TBL_NAME_init DB_NAME)) /\
  resolve defs (cleanup (node_of d)) = Some (CB_cleanup en_DB_NAME_TBL_NAME_cleanup) /\
  resolve defs (get_compute_failure_info (node_of d))
  = Some (CB_compute_failure_info
            (en_DB_NAME_TBL_NAME_compute_failure_info DB_NAME TBL_NAME rec_table
               rec_columns UUID_FMT)) /\
  is_valid (node_of d) = None /\
  clear_tracked_data (node_of d) = None /\
  symbol d = "en_" +:+ table_label DB_NAME TBL_NAME.
Proof.
  intros d defs. unfold defs, ENGINE_FUNC_OVSDB. rewrite !pasted_symbol.
  set (pre := db_token DB_NAME +:+ "_" +:+ TBL_NAME).
  change (run (node_of d)) with (Some ("en_" +:+ pre +:+ "_run")).
  change (init (node_of d)) with (Some ("en_" +:+ pre +:+ "_init")).
  change (cleanup (node_of d)) with (Some ("en_" +:+ pre +:+ "_cleanup")).
  change (get_compute_failure_info (node_of d))
    with (Some ("en_" +:+ pre +:+ "_compute_failure_info")).
  cbn [resolve lookup_symbol].
  repeat split;
    repeat match goal with
      | |- context [decide (?a = ?b)] =>
          let E := fresh "E" in
          destruct (decide (a = b)) as [E|E];
          [try (apply pasted_symbol_inj in E; discriminate) | try congruence]
      end; reflexivity.
Qed.

(** X2: [ENGINE_NODE(NAME, ARGS...)] expands exactly when there are at most
    two optional arguments.  The node it defines is [en_NAME], named
    [NAME], with callbacks [en_NAME_init], [en_NAME_run] and
    [en_NAME_cleanup]; it has [is_valid] (namely [en_NAME_is_valid]) exactly
    when [IS_VALID] is among the arguments, [clear_tracked_data] exactly
    when [CLEAR_TRACKED_DATA] is, and never a [get_compute_failure_info]. *)
Theorem engine_node_macro_callbacks NAME ARGS :
  (length ARGS <= 2 <-> is_Some (ENGINE_NODE NAME ARGS)) /\
  (forall d, ENGINE_NODE NAME ARGS = Some d ->
     symbol d = "en_" +:+ NAME /\
     name (node_of d) = Some NAME /\
     init (node_of d) = Some ("en_" +:+ NAME +:+ "_init") /\
     run (node_of d) = Some ("en_" +:+ NAME +:+ "_run") /\
     cleanup (node_of d) = Some ("en_" +:+ NAME +:+ "_cleanup") /\
     (In IS_VALID ARGS ->
      is_valid (node_of d) = Some ("en_" +:+ NAME +:+ "_is_valid")) /\
     (~ In IS_VALID ARGS -> is_valid (node_of d) = None) /\
     (In CLEAR_TRACKED_DATA ARGS ->
      clear_tracked_data (node_of d)
      = Some ("en_" +:+ NAME +:+ "_clear_tracked_data")) /\
     (~ In CLEAR_TRACKED_DATA ARGS -> clear_tracked_data (node_of d) = None) /\
     get_compute_failure_info (node_of d) = None).
Proof.
  split.
  - destruct ARGS as [|A [|B [|C ARGS]]]; cbn; split; intros H;
      try lia; try (eexists; reflexivity); now destruct H.
  - intros d H.
    destruct ARGS as [|A [|B [|C ARGS]]]; try discriminate; injection H as <-;
      [|destruct A|destruct A, B];
      repeat split; try reflexivity; cbn; intros H;
      first [reflexivity | exfalso; intuition discriminate].
Qed.

Lemma engine_node_macro_callbacks_witness :
  symbol (ENGINE_NODE2 "flow" IS_VALID) = "en_flow" /\
  name (node_of (ENGINE_NODE2 "flow" IS_VALID)) = Some "flow" /\
  init (node_of (ENGINE_NODE2 "flow" IS_VALID)) = Some "en_flow_init" /\
  run (node_of (ENGINE_NODE2 "flow" IS_VALID)) = Some "en_flow_run" /\
  cleanup (node_of (ENGINE_NODE2 "flow" IS_VALID)) = Some "en_flow_cleanup" /\
  is_valid (node_of (ENGINE_NODE2 "flow" IS_VALID)) = Some "en_flow_is_valid" /\
  clear_tracked_data (node_of (ENGINE_NODE2 "flow" IS_VALID)) = None /\
  get_compute_failure_info (node_of (ENGINE_NODE2 "flow" IS_VALID)) = None.
Proof.
  destruct (proj2 (engine_node_macro_callbacks "flow" [IS_VALID])
              (ENGINE_NODE2 "flow" IS_VALID) eq_refl)
    as (Hsym & Hname & Hinit & Hrun & Hcleanup & Hvalid & _ & _ & Hclear & Hinfo).
  refine (conj Hsym (conj Hname (conj Hinit (conj Hrun (conj Hcleanup
            (conj (Hvalid _) (conj (Hclear _) Hinfo))))))).
  - left. reflexivity.
  - intros [H|[]]. discriminate.
Defined.

(** X3: the order of the two optional arguments of [ENGINE_NODE3] does not
    matter, and giving the same argument twice defines the node
    [ENGINE_NODE2] defines with it once. *)
Theorem engine_node3_arguments_commute NAME ARG1 ARG2 :
  node_of (ENGINE_NODE3 NAME ARG1 ARG2) = node_of (ENGINE_NODE3 NAME ARG2 ARG1) /\
  node_of (ENGINE_NODE3 NAME ARG1 ARG1) = node_of (ENGINE_NODE2 NAME ARG1).
Proof. destruct ARG1, ARG2; split; reflexivity. Qed.

(** X4: the nodes [ENGINE_NODE_SB], [ENGINE_NODE_NB] and [ENGINE_NODE_OVS]
    define have pairwise different names and pairwise different symbols:
    two of them share a name, or a symbol, only if they come from the same
    macro with the same table. *)
Theorem leaf_node_names_unique i j macro_i macro_j TBL1 TBL2 :
  [ENGINE_NODE_SB; ENGINE_NODE_NB; ENGINE_NODE_OVS] !! i = Some macro_i ->
  [ENGINE_NODE_SB; ENGINE_NODE_NB; ENGINE_NODE_OVS] !! j = Some macro_j ->
  name (node_of (macro_i TBL1)) = name (node_of (macro_j TBL2)) \/
  symbol (macro_i TBL1) = symbol (macro_j TBL2) ->
  i = j /\ TBL1 = TBL2.
Proof.
  intros Hi Hj H.
  destruct i as [|[|[|i]]]; try discriminate; injection Hi as <-;
    destruct j as [|[|[|j]]]; try discriminate; injection Hj as <-;
    destruct H as [H|H]; vm_compute in H; try discriminate;
    injection H as ->; split; reflexivity.
Qed.

Lemma leaf_node_names_unique_witness : 0 = 0 /\ "chassis" = "chassis".
Proof.
  apply (leaf_node_names_unique 0 0 ENGINE_NODE_SB ENGINE_NODE_SB "chassis" "chassis");
    [reflexivity | reflexivity | left; reflexivity].
Defined.

Lemma fold_designate_stats ds n :
  stats (fold_left designate ds n) = stats n.
Proof.
  revert n. induction ds as [|d ds IH]; intros n; [reflexivity|].
  cbn [fold_left]. rewrite IH. now destruct d.
Qed.

(** X5: a node a definition macro defines has no input yet: [n_inputs] is
    0, every slot of its input array holds a null node and a null handler,
    and its three counters are 0. *)
Theorem macro_defined_node_has_no_inputs d :
  macro_defined d ->
  n_inputs (node_of d) = 0 /\
  (forall i e, inputs (node_of d) !! i = Some e ->
               node e = NULL /\ change_handler e = None) /\
  stats (node_of d) = {| recompute := 0; compute := 0; cancel := 0 |}.
Proof.
  intros _. unfold node_of, static_init.
  destruct (fold_designate_inputs (initializer d) engine_node_zero) as [-> ->].
  rewrite fold_designate_stats. split; [reflexivity|]. split; [|reflexivity].
  intros i e H. unfold engine_node_zero in H. cbn [inputs] in H.
  apply lookup_replicate in H as [-> _]. split; reflexivity.
Qed.

Lemma macro_defined_node_has_no_inputs_witness :
  n_inputs Example.en_sb_chassis = 0 /\
  (forall i e, inputs Example.en_sb_chassis !! i = Some e ->
               node e = NULL /\ change_handler e = None) /\
  stats Example.en_sb_chassis = {| recompute := 0; compute := 0; cancel := 0 |}.
Proof.
  apply (macro_defined_node_has_no_inputs (ENGINE_NODE_SB "chassis")). constructor.
Defined.

(** ** The enumerations as numbers *)

(** X6: a handler result and a node state have the same number only for
    HANDLED_UPDATED with UPDATED and HANDLED_UNCHANGED with UNCHANGED;
    [EN_UNHANDLED] has the number of no node state (and not that of
    [EN_STATE_MAX]).  Different node states have different numbers, all
    from 0 to [EN_STATE_MAX]. *)
Theorem handler_result_matches_state_only_when_handled :
  (forall r s,
     engine_input_handler_result_val r = engine_node_state_val s <->
     (r = EN_HANDLED_UPDATED /\ s = EN_UPDATED) \/
     (r = EN_HANDLED_UNCHANGED /\ s = EN_UNCHANGED)) /\
  (forall s1 s2, engine_node_state_val s1 = engine_node_state_val s2 -> s1 = s2) /\
  (forall s, (0 <= engine_node_state_val s <= engine_node_state_val EN_STATE_MAX)%Z).
Proof.
  split; [|split].
  - intros r s. split.
    + destruct r, s; intros H; vm_compute in H; try discriminate; auto.
    + intros [[-> ->] | [-> ->]]; reflexivity.
  - intros s1 s2. destruct s1, s2; intros H; vm_compute in H;
      try discriminate; reflexivity.
  - intros s. destruct s; vm_compute; split; discriminate.
Qed.

(** ** The leaf callbacks together *)

(** What [run] does in terms of the store alone. *)
Lemma leaf_run_char rec_table node d w :
  en_DB_NAME_TBL_NAME_run rec_table node d w
  = match mem w !! node with
    | Some (ONode n) =>
        match mem w !! data n with
        | Some (OTable t) =>
            match mem w !! table t with
            | Some (OIdl i) =>
                Ok (if track_first i !! tc_name rec_table is Some _
                    then EN_UPDATED else EN_UNCHANGED) w
            | _ => Fault Undefined
            end
        | _ => Fault Undefined
        end
    | _ => Fault Undefined
    end.
Proof.
  unfold en_DB_NAME_TBL_NAME_run, EN_OVSDB_GET, rec_table_track_get_first,
    ovsdb_idl_track_get_first, load_node, load_table, load_idl, load, bind, ret, fail.
  destruct (mem w !! node) as [[n| | |]|]; try reflexivity.
  destruct (mem w !! data n) as [[|t| |]|]; try reflexivity.
  destruct (mem w !! table t) as [[| | |i]|]; try reflexivity.
  now destruct (track_first i !! tc_name rec_table).
Qed.

(** X7: after a leaf's [init] for [DB_NAME], in any world where the node's
    [data] is the pointer [init] returned and the payload there is as
    [init] left it, [EN_OVSDB_GET] of the node is the IDL of [DB_NAME] from
    the init argument, and [run] reports [EN_UPDATED] exactly when that
    IDL has a tracked row of the leaf's table. *)
Theorem leaf_run_after_init DB_NAME rec_table init_node arg a w p w' w2 node n d :
  mem w !! arg = Some (OArg a) ->
  en_DB_NAME_TBL_NAME_init DB_NAME init_node arg w = Ok p w' ->
  mem w2 !! node = Some (ONode n) ->
  data n = p ->
  mem w2 !! p = mem w' !! p ->
  EN_OVSDB_GET node w2 = Ok (DB_NAME_idl DB_NAME a) w2 /\
  (forall i, mem w2 !! DB_NAME_idl DB_NAME a = Some (OIdl i) ->
     en_DB_NAME_TBL_NAME_run rec_table node d w2
     = Ok (if track_first i !! tc_name rec_table is Some _
           then EN_UPDATED else EN_UNCHANGED) w2).
Proof.
  intros Ha Hinit Hn Hdata Hp.
  rewrite (leaf_init_ok DB_NAME init_node arg a w Ha) in Hinit.
  injection Hinit as <- <-. cbn [mem set_mem] in Hp.
  rewrite lookup_insert_eq in Hp. rewrite <- Hdata in Hp.
  split.
  - apply (EN_OVSDB_GET_ok node n _ w2 Hn Hp).
  - intros i Hi. rewrite leaf_run_char, Hn, Hp. cbn [table].
    unfold rec_table_get. now rewrite Hi.
Qed.

Lemma leaf_run_after_init_witness :
  EN_OVSDB_GET 1%N (Example.w_ready Example.idl_changed false)
  = Ok 4%N (Example.w_ready Example.idl_changed false) /\
  en_DB_NAME_TBL_NAME_run Example.chassis_table 1%N 5%N
    (Example.w_ready Example.idl_changed false)
  = Ok EN_UPDATED (Example.w_ready Example.idl_changed false).
Proof.
  pose (w := Example.w_static Example.idl_changed false).
  pose (w' := set_mem w (<[5%N := OTable Example.payload]> (mem w))).
  assert (mem w !! 2%N = Some (OArg Example.arg0)) as Ha
    by (vm_compute; reflexivity).
  assert (en_DB_NAME_TBL_NAME_init sb 1%N 2%N w = Ok 5%N w') as Hinit
    by (vm_compute; reflexivity).
  assert (mem (Example.w_ready Example.idl_changed false) !! 1%N
          = Some (ONode Example.en_sb_chassis_ready)) as Hn
    by (vm_compute; reflexivity).
  assert (mem (Example.w_ready Example.idl_changed false) !! 5%N = mem w' !! 5%N) as Hp
    by (vm_compute; reflexivity).
  destruct (leaf_run_after_init sb Example.chassis_table 1%N 2%N Example.arg0 w 5%N w'
              (Example.w_ready Example.idl_changed false) 1%N
              Example.en_sb_chassis_ready 5%N Ha Hinit Hn eq_refl Hp) as [Hget Hrun].
  split; [exact Hget|].
  apply (Hrun Example.idl_changed). vm_compute. reflexivity.
Defined.

(** X8: a leaf's [init] reads of its arguments only the IDL of its own
    [DB_NAME]: whatever node it is given, and whatever the other two IDLs of
    the init argument are, the result is the same. *)
Theorem leaf_init_reads_own_idl DB_NAME node1 node2 arg1 arg2 a1 a2 w :
  mem w !! arg1 = Some (OArg a1) ->
  mem w !! arg2 = Some (OArg a2) ->
  DB_NAME_idl DB_NAME a1 = DB_NAME_idl DB_NAME a2 ->
  en_DB_NAME_TBL_NAME_init DB_NAME node1 arg1 w
  = en_DB_NAME_TBL_NAME_init DB_NAME node2 arg2 w.
Proof.
  intros H1 H2 Hidl.
  rewrite (leaf_init_ok DB_NAME node1 arg1 a1 w H1).
  rewrite (leaf_init_ok DB_NAME node2 arg2 a2 w H2).
  now rewrite Hidl.
Qed.

Lemma leaf_init_reads_own_idl_witness :
  en_DB_NAME_TBL_NAME_init sb 1%N 2%N
    (set_mem (Example.w_static Example.idl_quiet false)
       (<[3%N := OArg {| sb_idl := 4%N; nb_idl := 0%N; ovs_idl := 0%N |}]>
          (mem (Example.w_static Example.idl_quiet false))))
  = en_DB_NAME_TBL_NAME_init sb 7%N 3%N
      (set_mem (Example.w_static Example.idl_quiet false)
         (<[3%N := OArg {| sb_idl := 4%N; nb_idl := 0%N; ovs_idl := 0%N |}]>
            (mem (Example.w_static Example.idl_quiet false)))).
Proof.
  apply (leaf_init_reads_own_idl sb 1%N 7%N 2%N 3%N Example.arg0
           {| sb_idl := 4%N; nb_idl := 0%N; ovs_idl := 0%N |});
    vm_compute; reflexivity.
Defined.

(** X9: two leaf [init] calls in a row return different pointers, and the
    second leaves the first payload as it was: the data of two leaf nodes
    never alias. *)
Theorem leaf_init_twice_disjoint DB1 DB2 node1 node2 arg1 arg2 w p1 w1 p2 w2 :
  en_DB_NAME_TBL_NAME_init DB1 node1 arg1 w = Ok p1 w1 ->
  en_DB_NAME_TBL_NAME_init DB2 node2 arg2 w1 = Ok p2 w2 ->
  p1 <> p2 /\
  mem w2 !! p1 = mem w1 !! p1 /\
  (exists t1, mem w2 !! p1 = Some (OTable t1)) /\
  (exists t2, mem w2 !! p2 = Some (OTable t2)).
Proof.
  intros H1 H2.
  apply leaf_init_inv in H1 as (a1 & _ & _ & ->).
  apply leaf_init_inv in H2 as (a2 & _ & Hp2 & ->).
  match type of Hp2 with _ = fresh ({[NULL]} ∪ dom (mem ?w1)) =>
    destruct (fresh_block w1) as [_ Hfresh] end.
  rewrite <- Hp2 in Hfresh. cbn [mem set_mem] in *.
  assert (p1 <> p2) as Hne.
  { intros ->. now rewrite lookup_insert_eq in Hfresh. }
  split; [assumption|]. split; [now rewrite (lookup_insert_ne _ p2 p1) by auto|].
  split.
  - rewrite (lookup_insert_ne _ p2 p1) by auto. rewrite lookup_insert_eq. eauto.
  - rewrite lookup_insert_eq. eauto.
Qed.

Lemma leaf_init_twice_disjoint_witness :
  5%N <> 6%N /\
  mem (set_mem (set_mem (Example.w_static Example.idl_quiet false)
                  (<[5%N := OTable Example.payload]>
                     (mem (Example.w_static Example.idl_quiet false))))
         (<[6%N := OTable {| table := 8%N; n_indexes := 0;
                             indexes := indexes ed_type_ovsdb_table_zero |}]>
            (<[5%N := OTable Example.payload]>
               (mem (Example.w_static Example.idl_quiet false))))) !! 5%N
  = Some (OTable Example.payload).
Proof.
  pose (w := Example.w_static Example.idl_quiet false).
  pose (w1 := set_mem w (<[5%N := OTable Example.payload]> (mem w))).
  pose (w2 := set_mem w1 (<[6%N := OTable {| table := 8%N; n_indexes := 0;
                                             indexes := indexes ed_type_ovsdb_table_zero |}]>
                            (mem w1))).
  assert (en_DB_NAME_TBL_NAME_init sb 1%N 2%N w = Ok 5%N w1) as H1
    by (vm_compute; reflexivity).
  assert (en_DB_NAME_TBL_NAME_init nb 1%N 2%N w1 = Ok 6%N w2) as H2
    by (vm_compute; reflexivity).
  destruct (leaf_init_twice_disjoint sb nb 1%N 1%N 2%N 2%N w 5%N w1 6%N w2 H1 H2)
    as (Hne & Hkeep & _ & _).
  split; [exact Hne|].
  refine (eq_trans Hkeep _). vm_compute. reflexivity.
Defined.

(** ** What the diagnostic leaves alone *)

Lemma for_index_world body : 
  (forall i s w s' w', body i s w = Ok s' w' -> w' = w) ->
  forall todo i s w s' w', for_index body i todo s w = Ok s' w' -> w' = w.
Proof.
  intros Hbody. induction todo as [|todo IH]; intros i s w s' w' H.
  - now injection H as _ <-.
  - cbn in H. apply bind_inv in H as (s1 & w1 & H1 & H).
    apply Hbody in H1 as ->. eauto.
Qed.

Lemma failure_info_column_world rec_columns row i s w s' w' :
  failure_info_column rec_columns row i s w = Ok s' w' -> w' = w.
Proof.
  unfold failure_info_column.
  destruct (ovsdb_idl_track_is_updated row i); [|now intros [= _ <-]].
  destruct (rec_columns !! i); [now intros [= _ <-] | discriminate].
Qed.

Lemma failure_info_row_world DB_NAME TBL_NAME rec_columns UUID_FMT row s w s' w' :
  failure_info_row DB_NAME TBL_NAME rec_columns UUID_FMT row s w = Ok s' w' -> w' = w.
Proof.
  unfold failure_info_row.
  destruct (0 <? _)%N; [now intros [= _ <-]|].
  destruct (0 <? _)%N; [now intros [= _ <-]|].
  intros H. apply bind_inv in H as (s1 & w1 & H1 & H).
  apply for_index_world in H1 as ->; [now injection H as _ <-|].
  intros. eapply failure_info_column_world; eassumption.
Qed.

Lemma for_tracked_world body :
  (forall row s w s' w', body row s w = Ok s' w' -> w' = w) ->
  forall row s w s' w', for_tracked body row s w = Ok s' w' -> w' = w.
Proof.
  intros Hbody row. induction row as [row IH] using track_list_ind.
  intros s w s' w' H. destruct row as [u c i m d up next].
  cbn [for_tracked] in H. apply bind_inv in H as (s1 & w1 & H1 & H).
  apply Hbody in H1 as ->.
  cbn [ovsdb_idl_track_get_next track_next] in *.
  destruct next as [row'|]; [eapply (IH row' eq_refl); eassumption|].
  now injection H as _ <-.
Qed.

(** X10: whenever the [get_compute_failure_info] callback of a leaf
    returns, the object store and the debug setting are as before; with
    debug logging disabled the log is as before, with it enabled the log
    has grown by exactly one message. *)
Theorem leaf_compute_failure_info_only_logs
    DB_NAME TBL_NAME rec_table rec_columns UUID_FMT node w w' :
  en_DB_NAME_TBL_NAME_compute_failure_info
    DB_NAME TBL_NAME rec_table rec_columns UUID_FMT node w = Ok tt w' ->
  mem w' = mem w /\
  vlog_dbg_enabled w' = vlog_dbg_enabled w /\
  (vlog_dbg_enabled w = false -> vlog w' = vlog w) /\
  (vlog_dbg_enabled w = true -> exists msg, vlog w' = (vlog w ++ [msg])%list).
Proof.
  intros H. unfold en_DB_NAME_TBL_NAME_compute_failure_info in H.
  unfold bind at 1 in H. unfold VLOG_IS_DBG_ENABLED in H.
  destruct (vlog_dbg_enabled w) eqn:Hdbg; cbn [negb] in H.
  - apply bind_inv in H as (tbl & w1 & H1 & H).
    apply EN_OVSDB_GET_inv in H1 as [-> _].
    apply bind_inv in H as (n & w2 & H2 & H).
    apply load_node_inv in H2 as [_ ->].
    apply bind_inv in H as (nm & w3 & H3 & H).
    assert (w3 = w) as ->.
    { destruct (name n); [now injection H3 as _ <- | discriminate]. }
    apply bind_inv in H as (first & w4 & H4 & H).
    apply track_get_first_inv in H4 as ->.
    apply bind_inv in H as (s & w5 & H5 & H).
    assert (w5 = w) as ->.
    { destruct first as [row|]; [|now injection H5 as _ <-].
      eapply for_tracked_world; [|exact H5].
      intros. eapply failure_info_row_world; eassumption. }
    rewrite (VLOG_DBG_ok _ _ Hdbg) in H. injection H as <-.
    cbn. split; [reflexivity|]. split; [assumption|].
    split; [discriminate | eauto].
  - injection H as <-. split; [reflexivity|]. split; [assumption|].
    split; [reflexivity | discriminate].
Qed.

Lemma leaf_compute_failure_info_only_logs_witness :
  mem (logged (Example.w_ready Example.idl_quiet true)
         ("Node " +:+ DQUOTE +:+ "SB_chassis" +:+ DQUOTE
          +:+ " compute failure info:" +:+ LF))
  = mem (Example.w_ready Example.idl_quiet true).
Proof.
  apply (leaf_compute_failure_info_only_logs sb "chassis" Example.chassis_table
           Example.chassis_columns Example.uuid_text 1%N
           (Example.w_ready Example.idl_quiet true)).
  vm_compute. reflexivity.
Defined.

(** X11: logging the diagnostic does not change what [run] reports: after
    a [get_compute_failure_info] of one leaf that returned, [run] of any
    leaf on any node gives the result it would have given before it. *)
Theorem leaf_run_after_compute_failure_info
    DB_NAME TBL_NAME rec_table rec_columns UUID_FMT node w w' run_table run_node d :
  en_DB_NAME_TBL_NAME_compute_failure_info
    DB_NAME TBL_NAME rec_table rec_columns UUID_FMT node w = Ok tt w' ->
  en_DB_NAME_TBL_NAME_run run_table run_node d w'
  = match en_DB_NAME_TBL_NAME_run run_table run_node d w with
    | Ok s _ => Ok s w'
    | Fault f => Fault f
    end.
Proof.
  intros H. apply leaf_compute_failure_info_only_logs in H as (Hmem & _).
  rewrite !leaf_run_char, Hmem.
  destruct (mem w !! run_node) as [[n| | |]|]; try reflexivity.
  destruct (mem w !! data n) as [[|t| |]|]; try reflexivity.
  destruct (mem w !! table t) as [[| | |i]|]; reflexivity.
Qed.

Lemma leaf_run_after_compute_failure_info_witness :
  en_DB_NAME_TBL_NAME_run Example.chassis_table 1%N 5%N
    (logged (Example.w_two_leaves true)
       ("Node " +:+ DQUOTE +:+ "NB_port" +:+ DQUOTE
        +:+ " compute failure info:" +:+ LF))
  = Ok EN_UPDATED
       (logged (Example.w_two_leaves true)
          ("Node " +:+ DQUOTE +:+ "NB_port" +:+ DQUOTE
           +:+ " compute failure info:" +:+ LF)).
Proof.
  refine (eq_trans
            (leaf_run_after_compute_failure_info nb "port" Example.port_table
               [] Example.uuid_text 6%N
               (Example.w_two_leaves true) _ Example.chassis_table 1%N 5%N _)
            _);
    vm_compute; reflexivity.
Defined.

(** X12: [run] is defined exactly when the node's [data] points to a
    payload whose [table] is an IDL: then it returns a state and the same
    world; in every other case dereferencing fails.  In particular [run] on
    a macro-defined node before [init], whose [data] is null, is undefined
    (no object lives at the null address). *)
Theorem leaf_run_defined_iff_initialised rec_table node d w :
  ((exists n t i, mem w !! node = Some (ONode n) /\
                  mem w !! data n = Some (OTable t) /\
                  mem w !! table t = Some (OIdl i)) ->
   exists s, en_DB_NAME_TBL_NAME_run rec_table node d w = Ok s w) /\
  (~ (exists n t i, mem w !! node = Some (ONode n) /\
                    mem w !! data n = Some (OTable t) /\
                    mem w !! table t = Some (OIdl i)) ->
   en_DB_NAME_TBL_NAME_run rec_table node d w = Fault Undefined) /\
  (forall def, macro_defined def ->
     mem w !! node = Some (ONode (node_of def)) ->
     mem w !! NULL = None ->
     en_DB_NAME_TBL_NAME_run rec_table node d w = Fault Undefined).
Proof.
  rewrite leaf_run_char. split; [|split].
  - intros (n & t & i & -> & -> & ->). eauto.
  - intros Hno.
    destruct (mem w !! node) as [[n| | |]|] eqn:Hn; try reflexivity.
    destruct (mem w !! data n) as [[|t| |]|] eqn:Ht; try reflexivity.
    destruct (mem w !! table t) as [[| | |i]|] eqn:Hi; try reflexivity.
    destruct Hno. eauto 6.
  - intros def Hdef -> Hnull.
    destruct (macro_defined_state_data def Hdef) as [_ ->]. now rewrite Hnull.
Qed.

Lemma leaf_run_defined_iff_initialised_witness :
  (exists s, en_DB_NAME_TBL_NAME_run Example.chassis_table 1%N 5%N
               (Example.w_ready Example.idl_quiet false)
             = Ok s (Example.w_ready Example.idl_quiet false)) /\
  en_DB_NAME_TBL_NAME_run Example.chassis_table 1%N 0%N
    (Example.w_static Example.idl_quiet false) = Fault Undefined.
Proof.
  split.
  - apply (proj1 (leaf_run_defined_iff_initialised Example.chassis_table 1%N 5%N
                    (Example.w_ready Example.idl_quiet false))).
    exists Example.en_sb_chassis_ready, Example.payload, Example.idl_quiet.
    repeat split; vm_compute; reflexivity.
  - apply (proj2 (proj2 (leaf_run_defined_iff_initialised Example.chassis_table 1%N 0%N
                           (Example.w_static Example.idl_quiet false)))
             (ENGINE_NODE_SB "chassis")).
    + constructor.
    + vm_compute. reflexivity.
    + vm_compute. reflexivity.
Defined.




